(** * Zone transfers (xfr.go): a shallow embedding and its properties

    The file follows xfr.go: the envelope and session types, the
    authenticated channel ([ReadMsg], [WriteMsg]), the two inbound state
    machines ([inAxfr], [inIxfr]), the entry call [In] and the outbound
    engine [Out].

    How the Go code is rendered:
    - a goroutine owns the connection alone, so a run is a function from
      the session and what the network delivers to the final session, the
      list of observable events in program order, and how the task ended;
    - a deferred call runs when the function leaves, by return or by
      panic, the last deferred first;
    - what the peer sends is a list of raw reads; once it is used up the
      next read fails (every read carries a deadline);
    - the channel of envelopes is unbuffered and the consumer is taken to
      accept every envelope; a send is the event [EvSend]. *)

From Stdlib Require Import ZArith List String Lia Bool.
From Stdlib Require Strings.Byte.
From stdpp Require Import base option list strings gmap.
Import ListNotations.

Set Default Proof Using "Type".

(** ** Data *)

Definition bytes := list Byte.byte.

#[global] Instance byte_eq_dec : EqDecision Byte.byte := Byte.byte_eq_dec.

(** Go's [error] values that reach this file: the three sentinels xfr.go
    names, and whatever the transport, the codec or the TSIG primitive
    report. [None] is Go's [nil]. *)
Inductive error :=
| ErrId
| ErrSoa
| ErrSecret
| ErrExt (what : string).

#[global] Instance error_eq_dec : EqDecision error.
Proof. solve_decision. Defined.

Record RR_Header := { Name : string; Rrtype : Z }.

#[global] Instance RR_Header_eq_dec : EqDecision RR_Header.
Proof. solve_decision. Defined.

Record TSIG := { Hdr : RR_Header }.

#[global] Instance TSIG_eq_dec : EqDecision TSIG.
Proof. solve_decision. Defined.

(** A resource record is an interface value in Go: a concrete record type
    (what a type assertion sees) that carries a header (what [Header()]
    returns). Only the SOA record's serial is read by xfr.go. *)
Inductive RR :=
| SOA (hdr : RR_Header) (Serial : Z)
| rrTSIG (ts : TSIG)
| rrOther (hdr : RR_Header).

#[global] Instance RR_eq_dec : EqDecision RR.
Proof. solve_decision. Defined.

Definition Header (r : RR) : RR_Header :=
  match r with
  | SOA h _ => h
  | rrTSIG ts => Hdr ts
  | rrOther h => h
  end.

Record DnsQuestion := { Qname : string; Qtype : Z }.

#[global] Instance DnsQuestion_eq_dec : EqDecision DnsQuestion.
Proof. solve_decision. Defined.

Record Msg := {
  Id : Z;
  Response : bool;
  Authoritative : bool;
  Question : list DnsQuestion;
  Answer : list RR;
  Extra : list RR
}.

#[global] Instance Msg_eq_dec : EqDecision Msg.
Proof. solve_decision. Defined.

(** [new(Msg)] *)
Definition new_Msg : Msg :=
  {| Id := 0; Response := false; Authoritative := false;
     Question := []; Answer := []; Extra := [] |}.

Definition set_Answer (a : list RR) (m : Msg) : Msg :=
  {| Id := Id m; Response := Response m; Authoritative := Authoritative m;
     Question := Question m; Answer := a; Extra := Extra m |}.

Definition set_Authoritative (b : bool) (m : Msg) : Msg :=
  {| Id := Id m; Response := Response m; Authoritative := b;
     Question := Question m; Answer := Answer m; Extra := Extra m |}.

(** Modelled from the spec: [SetReply] lives in the message file of the
    package, absent here; the spec says the engine "builds a reply header
    from query": the reply takes the query's id and question and is marked
    as a response, its sections are left as they are. *)
Definition SetReply (r q : Msg) : Msg :=
  {| Id := Id q; Response := true; Authoritative := Authoritative r;
     Question := Question q; Answer := Answer r; Extra := Extra r |}.

(** Modelled from the spec: the record type codes are declared in the
    package's type table, absent here; the values are the protocol's. No
    property below depends on them beyond their being distinct. *)
Definition TypeSOA : Z := 6.
Definition TypeIXFR : Z := 251.
Definition TypeAXFR : Z := 252.

(** Modelled from the spec: "default 2 seconds each when unset", in
    nanoseconds as [time.Duration] counts. *)
Definition dnsTimeout : Z := 2 * 10 ^ 9.

(** Envelope is used when doing a transfer with a remote server. *)
Record Envelope := { E_RR : list RR; E_Error : option error }.

#[global] Instance Envelope_eq_dec : EqDecision Envelope.
Proof. solve_decision. Defined.

(** The part of [Conn] that xfr.go reads and writes. *)
Record ConnState := { tsigRequestMAC : string }.

(** [new(Conn)] *)
Definition new_Conn : ConnState := {| tsigRequestMAC := "" |}.

Record Transfer := {
  Conn : ConnState;
  DialTimeout : Z;
  ReadTimeout : Z;
  WriteTimeout : Z;
  TsigSecret : option (gmap string string);
  tsigTimersOnly : bool
}.

Definition set_Conn (c : ConnState) (t : Transfer) : Transfer :=
  {| Conn := c; DialTimeout := DialTimeout t; ReadTimeout := ReadTimeout t;
     WriteTimeout := WriteTimeout t; TsigSecret := TsigSecret t;
     tsigTimersOnly := tsigTimersOnly t |}.

Definition set_tsigRequestMAC (mac : string) (t : Transfer) : Transfer :=
  set_Conn {| tsigRequestMAC := mac |} t.

Definition set_tsigTimersOnly (b : bool) (t : Transfer) : Transfer :=
  {| Conn := Conn t; DialTimeout := DialTimeout t; ReadTimeout := ReadTimeout t;
     WriteTimeout := WriteTimeout t; TsigSecret := TsigSecret t;
     tsigTimersOnly := b |}.

(** ** The collaborators

    The message codec and the TSIG primitive are other files of the
    package. xfr.go only calls them, so they are parameters here. *)
Class Dns := {
  (** [m.Unpack(p)] on a fresh message: the message, or the codec's error *)
  Unpack : bytes -> Msg + error;
  (** [m.Pack()] *)
  Pack : Msg -> bytes * option error;
  (** [m.IsTsig()]: the TSIG record the message carries, if any *)
  IsTsig : Msg -> option TSIG;
  (** [TsigVerify(p, secret, requestMAC, timersOnly)] *)
  TsigVerify : bytes -> string -> string -> bool -> option error;
  (** [TsigGenerate(m, secret, requestMAC, timersOnly)] *)
  TsigGenerate : Msg -> string -> string -> bool -> bytes * string * option error
}.

(** ** What a run does and what the network answers *)

(** One call of [t.Read(p)] on the buffer of MaxMsgSize bytes: the [n]
    bytes it stored in [p] (so [p[:n]], at most the size of the buffer) and
    its error. *)
Record RawRead := { rd_p : bytes; rd_err : option error }.

#[global] Instance RawRead_eq_dec : EqDecision RawRead.
Proof. solve_decision. Defined.

(** The read that finds nothing before its deadline. *)
Definition read_timeout : RawRead :=
  {| rd_p := []; rd_err := Some (ErrExt "i/o timeout") |}.

Inductive Event :=
| EvDial (a : string) (timeout : Z)
| EvSetReadDeadline (timeout : Z)
| EvSetWriteDeadline (timeout : Z)
| EvReadMsg (timersOnly : bool)   (* t.ReadMsg(), with the session's flag at the call *)
| EvWrite (out : bytes)           (* t.Write(out) *)
| EvSend (e : Envelope)           (* c <- e *)
| EvCloseChan                     (* close(c) *)
| EvClose                         (* t.Close() *)
| EvWriteMsg (r : Msg)            (* w.WriteMsg(r) on the response writer *)
| EvTsigTimersOnly (b : bool).    (* w.TsigTimersOnly(b) *)

#[global] Instance Event_eq_dec : EqDecision Event.
Proof. solve_decision. Defined.

Inductive Exit :=
| Returned
| Panicked (why : string).

(** ** The authenticated channel *)

Section Channel.
Context `{Dns}.

(** ReadMsg reads a message from the transfer connection t. *)
Definition ReadMsg (t : Transfer) (rd : RawRead) : option Msg * option error :=
  let p := rd_p rd in
  match rd_err rd, p with
  | Some err, [] => (None, Some err)     (* err != nil && n == 0 *)
  | err, _ =>
    match Unpack p with
    | inr e => (None, Some e)
    | inl m =>
      match IsTsig m, TsigSecret t with
      | Some ts, Some secrets =>
        match secrets !! Name (Hdr ts) with
        | None => (Some m, Some ErrSecret)
        | Some secret =>
          (Some m, TsigVerify p secret (tsigRequestMAC (Conn t)) (tsigTimersOnly t))
        end
      | _, _ => (Some m, err)
      end
    end
  end.

(** [t.Write(out)], whose outcome [wr] the network decides. *)
Definition conn_Write (t : Transfer) (out : bytes) (wr : option error)
  : Transfer * list Event * option error :=
  (t, [EvWrite out], wr).

(** WriteMsg write a message throught the transfer connection t. *)
Definition WriteMsg (t : Transfer) (m : Msg) (wr : option error)
  : Transfer * list Event * option error :=
  match IsTsig m, TsigSecret t with
  | Some ts, Some secrets =>
    match secrets !! Name (Hdr ts) with
    | None => (t, [], Some ErrSecret)
    | Some secret =>
      let '(out, mac, err) :=
        TsigGenerate m secret (tsigRequestMAC (Conn t)) (tsigTimersOnly t) in
      let t := set_tsigRequestMAC mac t in
      match err with
      | Some e => (t, [], Some e)
      | None => conn_Write t out wr
      end
    end
  | _, _ =>
    let '(out, err) := Pack m in
    match err with
    | Some e => (t, [], Some e)
    | None => conn_Write t out wr
    end
  end.

Definition isSOAFirst (m : Msg) : bool :=
  match Answer m with
  | r :: _ => Rrtype (Header r) =? TypeSOA
  | [] => false
  end%Z.

Definition isSOALast (m : Msg) : bool :=
  match last (Answer m) with
  | Some r => Rrtype (Header r) =? TypeSOA
  | None => false
  end%Z.

(** ** The inbound state machines *)

(** What one pass through the loop body does: go round again with the
    loop's variables [l] updated, or leave the function. *)
Inductive Step (L : Type) :=
| Continue (l : L) (t : Transfer) (evs : list Event)
| Stop (t : Transfer) (evs : list Event) (how : Exit).
Arguments Continue {L} l t evs.
Arguments Stop {L} t evs how.

(** The next [t.Read] of the loop and what is left to arrive. *)
Definition next_read (rds : list RawRead) : RawRead * list RawRead :=
  match rds with
  | [] => (read_timeout, [])
  | rd :: rest => (rd, rest)
  end.

(** The events [evs] of the passes so far, put before the rest of a run. *)
Definition after (evs : list Event) (r : option (Transfer * list Event * Exit))
  : option (Transfer * list Event * Exit) :=
  match r with
  | Some (t, evs', how) => Some (t, evs ++ evs', how)
  | None => None
  end.

(** [for { body }]: [fuel] bounds the number of passes; [None] means the
    bound was reached with the loop still going. *)
Fixpoint run_loop {L : Type} (body : L -> Transfer -> RawRead -> Step L)
    (fuel : nat) (l : L) (t : Transfer) (rds : list RawRead)
  : option (Transfer * list Event * Exit) :=
  match fuel with
  | O => None
  | S fuel =>
    let '(rd, rest) := next_read rds in
    match body l t rd with
    | Stop t' evs how => Some (t', evs, how)
    | Continue l' t' evs => after evs (run_loop body fuel l' t' rest)
    end
  end.

(** The deferred calls of both state machines: [defer t.Close()] is
    registered first and [defer close(c)] second, so [close(c)] runs
    first. *)
Definition deferred : list Event := [EvCloseChan; EvClose].

Definition with_deferred (r : option (Transfer * list Event * Exit))
  : option (Transfer * list Event * Exit) :=
  match r with
  | Some (t, evs, how) => Some (t, evs ++ deferred, how)
  | None => None
  end.

(** The events of one pass, whichever way it ends. *)
Definition step_events {L : Type} (s : Step L) : list Event :=
  match s with
  | Continue _ _ evs => evs
  | Stop _ evs _ => evs
  end.

Definition read_deadline (t : Transfer) : Z :=
  if (ReadTimeout t =? 0)%Z then dnsTimeout else ReadTimeout t.

Definition ok_envelope (m : Msg) : Envelope :=
  {| E_RR := Answer m; E_Error := None |}.

(** The second half of inAxfr's loop body, [if !first { ... }], for the
    message [in_] after the events [evs] of this pass. *)
Definition axfr_streaming (in_ : Msg) (evs : list Event) (first : bool) (t : Transfer)
  : Step bool :=
  if negb first then
    let t := set_tsigTimersOnly true t in   (* Subsequent envelopes use this. *)
    if isSOALast in_ then Stop t (evs ++ [EvSend (ok_envelope in_)]) Returned
    else Continue first t (evs ++ [EvSend (ok_envelope in_)])
  else Continue first t evs.

(** The body of inAxfr's loop; the loop variable is [first]. *)
Definition axfr_body (id timeout : Z) (first : bool) (t : Transfer) (rd : RawRead)
  : Step bool :=
  let evs := [EvSetReadDeadline timeout; EvReadMsg (tsigTimersOnly t)] in
  match ReadMsg t rd with
  | (_, Some err) =>
    Stop t (evs ++ [EvSend {| E_RR := []; E_Error := Some err |}]) Returned
  | (None, None) => Stop t evs (Panicked "nil pointer dereference")
  | (Some in_, None) =>
    if negb (id =? Id in_)%Z then
      Stop t (evs ++ [EvSend {| E_RR := Answer in_; E_Error := Some ErrId |}]) Returned
    else if first then
      if negb (isSOAFirst in_) then
        Stop t (evs ++ [EvSend {| E_RR := Answer in_; E_Error := Some ErrSoa |}]) Returned
      else
        let first := negb first in
        (* only one answer that is SOA, receive more *)
        if (length (Answer in_) =? 1)%nat then
          let t := set_tsigTimersOnly true t in
          Continue first t (evs ++ [EvSend (ok_envelope in_)])
        else axfr_streaming in_ evs first t
    else axfr_streaming in_ evs first t
  end.

Definition inAxfr (t : Transfer) (id : Z) (rds : list RawRead)
  : option (Transfer * list Event * Exit) :=
  with_deferred (run_loop (axfr_body id (read_deadline t)) (S (length rds)) true t rds).

(** The second half of inIxfr's loop body, [if !first { ... }], for the
    message [in_] after the events [evs] of this pass. *)
Definition ixfr_streaming (in_ : Msg) (evs : list Event) (first : bool) (serial : Z)
    (t : Transfer) : Step (bool * Z) :=
  if negb first then
    let t := set_tsigTimersOnly true t in
    (* If the last record in the IXFR contains the servers' SOA, we should quit:
       in.Answer[len(in.Answer)-1].( *SOA) *)
    match last (Answer in_) with
    | None => Stop t evs (Panicked "index out of range")
    | Some (SOA _ v) =>
      if (v =? serial)%Z then Stop t (evs ++ [EvSend (ok_envelope in_)]) Returned
      else Continue (first, serial) t (evs ++ [EvSend (ok_envelope in_)])
    | Some _ => Continue (first, serial) t (evs ++ [EvSend (ok_envelope in_)])
    end
  else Continue (first, serial) t evs.

(** The body of inIxfr's loop; the loop variables are [first] and
    [serial]. *)
Definition ixfr_body (id timeout : Z) (l : bool * Z) (t : Transfer) (rd : RawRead)
  : Step (bool * Z) :=
  let '(first, serial) := l in
  let evs := [EvSetReadDeadline timeout; EvReadMsg (tsigTimersOnly t)] in
  match ReadMsg t rd with
  | (None, Some err) =>
    (* in.Answer with in == nil *)
    Stop t evs (Panicked "nil pointer dereference")
  | (Some in_, Some err) =>
    Stop t (evs ++ [EvSend {| E_RR := Answer in_; E_Error := Some err |}]) Returned
  | (None, None) => Stop t evs (Panicked "nil pointer dereference")
  | (Some in_, None) =>
    if negb (id =? Id in_)%Z then
      Stop t (evs ++ [EvSend {| E_RR := Answer in_; E_Error := Some ErrId |}]) Returned
    else if first then
      (* A single SOA RR signals "no changes" *)
      if (length (Answer in_) =? 1)%nat && isSOAFirst in_ then
        Stop t (evs ++ [EvSend (ok_envelope in_)]) Returned
      else if negb (isSOAFirst in_) then
        (* Check if the returned answer is ok *)
        Stop t (evs ++ [EvSend {| E_RR := Answer in_; E_Error := Some ErrSoa |}]) Returned
      else
        (* This serial is important: serial = in.Answer[0].( *SOA).Serial *)
        match Answer in_ with
        | SOA _ s :: _ => ixfr_streaming in_ evs (negb first) s t
        | _ => Stop t evs (Panicked "interface conversion")
        end
    else ixfr_streaming in_ evs first serial t
  end.

Definition inIxfr (t : Transfer) (id : Z) (rds : list RawRead)
  : option (Transfer * list Event * Exit) :=
  with_deferred (run_loop (ixfr_body id (read_deadline t)) (S (length rds)) (true, 0%Z) t rds).

(** ** The entry call *)

(** What the network answers during [In]: the dial, the write of the
    query, and the replies. *)
Record Net := {
  dial_err : option error;
  write_err : option error;
  incoming : list RawRead
}.

(** What became of the task [In] starts. *)
Inductive Background :=
| BgNone                    (* no state machine was started *)
| BgAxfr (how : Exit)
| BgIxfr (how : Exit)
| BgPanic (why : string).   (* q.Question[0] on a query without question *)

Record InResult := {
  in_env : bool;            (* the channel returned: true for a channel, false for nil *)
  in_err : option error;
  in_t : Transfer;
  in_trace : list Event;
  in_bg : Background
}.

(** In performs an incoming transfer with the server in a. *)
Definition In (t : Transfer) (q : Msg) (a : string) (net : Net) : option InResult :=
  let t := set_Conn new_Conn t in
  let timeout := if (DialTimeout t =? 0)%Z then dnsTimeout else DialTimeout t in
  let ev0 := [EvDial a timeout] in
  match dial_err net with
  | Some err =>
    Some {| in_env := false; in_err := Some err; in_t := t; in_trace := ev0; in_bg := BgNone |}
  | None =>
    match WriteMsg t q (write_err net) with
    | (t, evw, Some err) =>
      Some {| in_env := false; in_err := Some err; in_t := t;
              in_trace := ev0 ++ evw; in_bg := BgNone |}
    | (t, evw, None) =>
      match Question q with
      | [] =>
        Some {| in_env := true; in_err := None; in_t := t;
                in_trace := ev0 ++ evw; in_bg := BgPanic "index out of range" |}
      | q0 :: _ =>
        if (Qtype q0 =? TypeAXFR)%Z then
          match inAxfr t (Id q) (incoming net) with
          | Some (t', evs, how) =>
            Some {| in_env := true; in_err := None; in_t := t';
                    in_trace := ev0 ++ evw ++ evs; in_bg := BgAxfr how |}
          | None => None
          end
        else if (Qtype q0 =? TypeIXFR)%Z then
          match inIxfr t (Id q) (incoming net) with
          | Some (t', evs, how) =>
            Some {| in_env := true; in_err := None; in_t := t';
                    in_trace := ev0 ++ evw ++ evs; in_bg := BgIxfr how |}
          | None => None
          end
        else
          Some {| in_env := true; in_err := None; in_t := t;
                  in_trace := ev0 ++ evw; in_bg := BgNone |}
      end
    end
  end.

(** ** The outbound engine *)

(** The task of [Out]: [ch] holds the envelopes the producer sends before
    it closes the channel, and [wres] what the response writer answers to
    the successive writes (a write past the end of [wres] succeeds). *)
Fixpoint Out_loop (r : Msg) (ch : list Envelope) (wres : list (option error))
  : Msg * list Event :=
  match ch with
  | [] => (set_Answer [] r, [EvTsigTimersOnly true])
  | x :: ch' =>
    let r := set_Answer (Answer r ++ E_RR x) r in
    match hd None wres with
    | Some _ => (r, [EvWriteMsg r])
    | None =>
      let '(r', evs) := Out_loop r ch' (tl wres) in
      (r', EvWriteMsg r :: evs)
    end
  end.

(** Out performs an outgoing transfer with the client connecting in w. *)
Definition Out (t : Transfer) (wres : list (option error)) (q : Msg) (ch : list Envelope)
  : option error * (Msg * list Event) :=
  let r := new_Msg in
  let r := SetReply r q in
  let r := set_Authoritative true r in
  (None, Out_loop r ch wres).

(** ** Reading a run *)

(** The read [rd] hands the state machine the message [m], without error
    and under the query's id. *)
Definition delivers (t : Transfer) (id : Z) (rd : RawRead) (m : Msg) : Prop :=
  ReadMsg t rd = (Some m, None) /\ Id m = id.

(** The events of a pass that reads [m] and emits it without error. *)
Definition round (timeout : Z) (timersOnly : bool) (m : Msg) : list Event :=
  [EvSetReadDeadline timeout; EvReadMsg timersOnly; EvSend (ok_envelope m)].

Definition rounds (timeout : Z) (timersOnly : bool) (ms : list Msg) : list Event :=
  concat (map (round timeout timersOnly) ms).

(** inIxfr's test for the end of the transfer: the last record is a SOA
    with the serial kept from the first message. *)
Definition ixfr_ends (serial : Z) (m : Msg) : bool :=
  match last (Answer m) with
  | Some (SOA _ v) => (v =? serial)%Z
  | _ => false
  end.

(** The events of a pass whose read fails with [err], in inAxfr. *)
Definition failed_round (timeout : Z) (timersOnly : bool) (err : error) : list Event :=
  [EvSetReadDeadline timeout; EvReadMsg timersOnly;
   EvSend {| E_RR := []; E_Error := Some err |}].

End Channel.

Arguments Continue {L} l t evs.
Arguments Stop {L} t evs how.

Definition is_close (e : Event) : bool :=
  match e with
  | EvClose | EvCloseChan => true
  | _ => false
  end.

(** The closes of a run, in the order they happen. *)
Definition closes (evs : list Event) : list Event := List.filter is_close evs.

(** The envelopes a run emits, in order. *)
Definition envelopes (evs : list Event) : list Envelope :=
  omap (fun e => match e with EvSend x => Some x | _ => None end) evs.

(** The value of the session's flag at each [ReadMsg] of a run. *)
Definition read_flags (evs : list Event) : list bool :=
  omap (fun e => match e with EvReadMsg b => Some b | _ => None end) evs.

(** The replies a run hands to the response writer, in order. *)
Definition written (evs : list Event) : list Msg :=
  omap (fun e => match e with EvWriteMsg r => Some r | _ => None end) evs.

(** The events a pass of either loop can produce. *)
Definition is_loop_event (e : Event) : bool :=
  match e with
  | EvSetReadDeadline _ | EvReadMsg _ | EvSend _ => true
  | _ => false
  end.

(** What one pass does to the session's flag: [ReadMsg] runs once, under
    the flag as the pass found it; the pass leaves the session alone or
    sets the flag, and it sets the flag whenever the loop goes on. *)
Definition flag_step {L : Type} (t : Transfer) (s : Step L) : Prop :=
  read_flags (step_events s) = [tsigTimersOnly t]
  /\ match s with
     | Continue _ t' _ => t' = set_tsigTimersOnly true t
     | Stop t' _ _ => t' = t \/ t' = set_tsigTimersOnly true t
     end.

(** The shape of a run of either loop: pass after pass, each of which
    sets the read deadline, reads, and then sends what it sends. *)
Inductive Passes (timeout : Z) : list Event -> Prop :=
| Passes_nil : Passes timeout []
| Passes_cons (b : bool) (sends rest : list Event) :
    Forall (fun e => exists x, e = EvSend x) sends ->
    Passes timeout rest ->
    Passes timeout (EvSetReadDeadline timeout :: EvReadMsg b :: sends ++ rest).

Definition is_write_deadline (e : Event) : bool :=
  match e with
  | EvSetWriteDeadline _ => true
  | _ => false
  end.

(** Whether inAxfr accepts the first reply [rd]: it is read without
    error, comes under the query's id and has a SOA as first answer
    record (the tests of the first pass before the flag is assigned). *)
Definition axfr_accepts `{Dns} (t : Transfer) (id : Z) (rd : RawRead) : bool :=
  match ReadMsg t rd with
  | (Some m, None) => (id =? Id m)%Z && isSOAFirst m
  | _ => false
  end.

(** Whether inIxfr accepts the first reply [rd] and goes on to its test
    for the end: as for inAxfr, and the reply is not the single record of
    "no changes"; its first record is a SOA record, whose serial is
    kept. *)
Definition ixfr_accepts `{Dns} (t : Transfer) (id : Z) (rd : RawRead) : bool :=
  match ReadMsg t rd with
  | (Some m, None) =>
    (id =? Id m)%Z && isSOAFirst m && negb (length (Answer m) =? 1)%nat
    && match Answer m with
       | SOA _ _ :: _ => true
       | _ => false
       end
  | _ => false
  end.

(** What one pass sends: a pass that goes on sends one envelope without
    error; a pass that returns sends one envelope; a pass that panics
    sends none. Every pass reads once. *)
Definition pass_sends {L : Type} (s : Step L) : Prop :=
  length (read_flags (step_events s)) = 1
  /\ match s with
     | Continue _ _ evs => exists x, envelopes evs = [x] /\ E_Error x = None
     | Stop _ evs Returned => exists x, envelopes evs = [x]
     | Stop _ evs (Panicked _) => envelopes evs = []
     end.

(** The timeout [In] dials with. *)
Definition dial_timeout (t : Transfer) : Z :=
  if (DialTimeout t =? 0)%Z then dnsTimeout else DialTimeout t.

(** An envelope as [Out] sees it: the error field is not looked at. *)
Definition records_only (x : Envelope) : Envelope :=
  {| E_RR := E_RR x; E_Error := None |}.

(** ** A small instance of the collaborators, to run the model on

    A wire format of one byte for the id and one byte per record: [x06] is
    a SOA with serial 5, [x07] a SOA with serial 9, [xfa] and [xfb] a TSIG
    record of the key "k." signed in full-message and in timers-only mode,
    any other byte a record of that type code. *)
Module Toy.

Definition soa (serial : Z) : RR := SOA {| Name := "z."; Rrtype := TypeSOA |} serial.

Definition key : TSIG := {| Hdr := {| Name := "k."; Rrtype := 250 |} |}.

Definition is_sig (b : Byte.byte) : bool :=
  match b with
  | Byte.xfa | Byte.xfb => true
  | _ => false
  end.

Definition rr_of_byte (b : Byte.byte) : RR :=
  match b with
  | Byte.x06 => soa 5
  | Byte.x07 => soa 9
  | _ => rrOther {| Name := "z."; Rrtype := Z.of_N (Byte.to_N b) |}
  end.

Definition byte_of_rr (r : RR) : Byte.byte :=
  match r with
  | SOA _ 5 => Byte.x06
  | SOA _ _ => Byte.x07
  | rrTSIG _ => Byte.xfa
  | rrOther h => default Byte.x01 (Byte.of_N (Z.to_N (Rrtype h)))
  end.

Definition unpack (p : bytes) : Msg + error :=
  match p with
  | [] => inr (ErrExt "short message")
  | i :: rs =>
    inl {| Id := Z.of_N (Byte.to_N i); Response := true; Authoritative := false;
           Question := [];
           Answer := map rr_of_byte (filter (fun b => is_sig b = false) rs);
           Extra := map (fun _ => rrTSIG key) (filter (fun b => is_sig b = true) rs) |}
  end.

Definition pack (m : Msg) : bytes * option error :=
  (default Byte.x00 (Byte.of_N (Z.to_N (Id m))) :: map byte_of_rr (Answer m), None).

Definition is_tsig (m : Msg) : option TSIG :=
  match last (Extra m) with
  | Some (rrTSIG ts) => Some ts
  | _ => None
  end.

Definition sig_byte (timersOnly : bool) : Byte.byte :=
  if timersOnly then Byte.xfb else Byte.xfa.

Definition tsig_generate (m : Msg) (secret requestMAC : string) (timersOnly : bool)
  : bytes * string * option error :=
  (fst (pack m) ++ [sig_byte timersOnly], (requestMAC +:+ "+")%string, None).

Definition tsig_verify (p : bytes) (secret requestMAC : string) (timersOnly : bool)
  : option error :=
  if decide (last p = Some (sig_byte timersOnly)) then None
  else Some (ErrExt "bad signature").

Definition dns : Dns :=
  {| Unpack := unpack; Pack := pack; IsTsig := is_tsig;
     TsigVerify := tsig_verify; TsigGenerate := tsig_generate |}.

(** A fresh session without keys, and one with the key "k.". *)
Definition plain : Transfer :=
  {| Conn := new_Conn; DialTimeout := 0; ReadTimeout := 0; WriteTimeout := 0;
     TsigSecret := None; tsigTimersOnly := false |}.

Definition keyed : Transfer :=
  {| Conn := new_Conn; DialTimeout := 0; ReadTimeout := 0; WriteTimeout := 0;
     TsigSecret := Some {[ "k."%string := "c2VjcmV0"%string ]};
     tsigTimersOnly := false |}.

(** A session whose table is configured but holds another key only. *)
Definition other_key : Transfer :=
  {| Conn := new_Conn; DialTimeout := 0; ReadTimeout := 0; WriteTimeout := 0;
     TsigSecret := Some {[ "j."%string := "c2VjcmV0"%string ]};
     tsigTimersOnly := false |}.

(** A read that delivers [p]. *)
Definition got (p : bytes) : RawRead := {| rd_p := p; rd_err := None |}.

Definition a_rr : RR := rrOther {| Name := "z."; Rrtype := 1 |}.

Definition query (qtype : Z) : Msg :=
  {| Id := 7; Response := false; Authoritative := false;
     Question := [ {| Qname := "z."; Qtype := qtype |} ]; Answer := []; Extra := [] |}.

Definition peer_ok (rds : list RawRead) : Net :=
  {| dial_err := None; write_err := None; incoming := rds |}.

(** The reply with id 7 and the given answer section, as [unpack] builds
    it, and the same reply signed with the key "k.". *)
Definition reply (answers : list RR) : Msg :=
  {| Id := 7; Response := true; Authoritative := false;
     Question := []; Answer := answers; Extra := [] |}.

Definition signed (answers : list RR) : Msg :=
  {| Id := 7; Response := true; Authoritative := false;
     Question := []; Answer := answers; Extra := [rrTSIG key] |}.

(** Replies on the wire. *)
Definition soa_only : RawRead := got [Byte.x07; Byte.x06].
Definition data : RawRead := got [Byte.x07; Byte.x01].
Definition data_soa : RawRead := got [Byte.x07; Byte.x01; Byte.x06].
Definition whole_zone : RawRead := got [Byte.x07; Byte.x06; Byte.x01; Byte.x01; Byte.x06].
Definition soa_data : RawRead := got [Byte.x07; Byte.x06; Byte.x01].
Definition no_answer : RawRead := got [Byte.x07].

(** The envelopes of a producer: the opening SOA, then a record and the
    closing SOA. *)
Definition zone : list Envelope :=
  [ {| E_RR := [soa 5]; E_Error := None |};
    {| E_RR := [a_rr; soa 5]; E_Error := None |} ].

(** The reply [Out] builds for the query of type AXFR, with the given
    answer section. *)
Definition out_reply (answers : list RR) : Msg :=
  {| Id := 7; Response := true; Authoritative := true;
     Question := [ {| Qname := "z."; Qtype := TypeAXFR |} ];
     Answer := answers; Extra := [] |}.

(** A reply under another id, a reply cut short by the transport, and a
    reply signed in timers-only mode. *)
Definition other_id : RawRead := got [Byte.x08; Byte.x06].
Definition cut_short : RawRead :=
  {| rd_p := [Byte.x07; Byte.x01]; rd_err := Some (ErrExt "unexpected EOF") |}.
Definition signed_late : RawRead := got [Byte.x07; Byte.x06; Byte.xfb].

(** The reply with the given id and answer section, as [unpack] builds
    it. *)
Definition reply_as (id : Z) (answers : list RR) : Msg :=
  {| Id := id; Response := true; Authoritative := false;
     Question := []; Answer := answers; Extra := [] |}.

(** A session that has carried a transfer before: the flag is set and a
    MAC is left. *)
Definition used : Transfer :=
  {| Conn := {| tsigRequestMAC := "0a1b" |}; DialTimeout := 0; ReadTimeout := 0;
     WriteTimeout := 0; TsigSecret := None; tsigTimersOnly := true |}.

(** A server that cannot be reached. *)
Definition peer_down : Net :=
  {| dial_err := Some (ErrExt "connection refused"); write_err := None; incoming := [] |}.

(** A query without question section. *)
Definition no_question : Msg :=
  {| Id := 7; Response := false; Authoritative := false;
     Question := []; Answer := []; Extra := [] |}.

End Toy.

(** * Properties *)

Section Properties.
Context `{Dns}.

(** ** The loop *)

Lemma ReadMsg_timeout (t : Transfer) :
  ReadMsg t read_timeout = (None, Some (ErrExt "i/o timeout")).
Proof. reflexivity. Qed.

(** [ReadMsg] hands back a message or an error, never neither. *)
Lemma ReadMsg_not_nil_nil (t : Transfer) (rd : RawRead) :
  ReadMsg t rd <> (None, None).
Proof.
  unfold ReadMsg.
  destruct (rd_err rd) as [e|], (rd_p rd) as [|b p]; try discriminate;
    destruct (Unpack _) as [m|e']; try discriminate;
    destruct (IsTsig m) as [ts|], (TsigSecret t) as [tbl|]; try discriminate;
    destruct (tbl !! _); discriminate.
Qed.

Lemma set_tsigTimersOnly_same (t : Transfer) :
  tsigTimersOnly t = true -> set_tsigTimersOnly true t = t.
Proof. destruct t; simpl; intros ->; reflexivity. Qed.

Lemma run_loop_stop {L : Type} (body : L -> Transfer -> RawRead -> Step L)
    fuel l t rd rest t' evs how :
  body l t rd = Stop t' evs how ->
  run_loop body (S fuel) l t (rd :: rest) = Some (t', evs, how).
Proof. simpl; intros ->; reflexivity. Qed.

Lemma run_loop_continue {L : Type} (body : L -> Transfer -> RawRead -> Step L)
    fuel l t rd rest l' t' evs :
  body l t rd = Continue l' t' evs ->
  run_loop body (S fuel) l t (rd :: rest) = after evs (run_loop body fuel l' t' rest).
Proof. simpl; intros ->; reflexivity. Qed.

Lemma run_loop_dry {L : Type} (body : L -> Transfer -> RawRead -> Step L)
    fuel l t t' evs how :
  body l t read_timeout = Stop t' evs how ->
  run_loop body (S fuel) l t [] = Some (t', evs, how).
Proof. simpl; intros ->; reflexivity. Qed.

Lemma after_nil r : after [] r = r.
Proof. destruct r as [[[t evs] how]|]; reflexivity. Qed.

Lemma after_app evs1 evs2 r : after evs1 (after evs2 r) = after (evs1 ++ evs2) r.
Proof. destruct r as [[[t evs] how]|]; simpl; [rewrite app_assoc|]; reflexivity. Qed.

(** A loop whose body leaves on a failed read comes to an end: one pass
    per read that arrives, and one more. *)
Lemma run_loop_total {L : Type} (body : L -> Transfer -> RawRead -> Step L) :
  (forall l t, exists t' evs how, body l t read_timeout = Stop t' evs how) ->
  forall rds fuel l t, length rds < fuel -> is_Some (run_loop body fuel l t rds).
Proof.
  intros Hdry rds; induction rds as [|rd rest IH]; intros [|fuel] l t Hlen;
    simpl in Hlen; try lia.
  - destruct (Hdry l t) as (t' & evs & how & E).
    rewrite (run_loop_dry _ _ _ _ _ _ _ E); eauto.
  - simpl. destruct (body l t rd) as [l' t' evs|t' evs how]; [|eauto].
    destruct (IH fuel l' t') as [[[t'' evs'] how] E]; [lia|].
    rewrite E; simpl; eauto.
Qed.

Lemma axfr_body_dry id timeout first t :
  axfr_body id timeout first t read_timeout
  = Stop t (failed_round timeout (tsigTimersOnly t) (ErrExt "i/o timeout")) Returned.
Proof. reflexivity. Qed.

Lemma ixfr_body_dry id timeout l t :
  ixfr_body id timeout l t read_timeout
  = Stop t [EvSetReadDeadline timeout; EvReadMsg (tsigTimersOnly t)]
      (Panicked "nil pointer dereference").
Proof. destruct l; reflexivity. Qed.

(** Both state machines return on every input: the loop ends, and the
    deferred calls follow its events. *)
Lemma inAxfr_run (t : Transfer) (id : Z) (rds : list RawRead) :
  exists t' evs how,
    run_loop (axfr_body id (read_deadline t)) (S (length rds)) true t rds
    = Some (t', evs, how)
    /\ inAxfr t id rds = Some (t', evs ++ deferred, how).
Proof.
  unfold inAxfr.
  destruct (run_loop_total (axfr_body id (read_deadline t))) with
    (rds := rds) (fuel := S (length rds)) (l := true) (t := t) as [[[t' evs] how] E];
    [intros; rewrite axfr_body_dry; eauto|lia|].
  rewrite E; simpl; eauto 6.
Qed.

Lemma inIxfr_run (t : Transfer) (id : Z) (rds : list RawRead) :
  exists t' evs how,
    run_loop (ixfr_body id (read_deadline t)) (S (length rds)) (true, 0%Z) t rds
    = Some (t', evs, how)
    /\ inIxfr t id rds = Some (t', evs ++ deferred, how).
Proof.
  unfold inIxfr.
  destruct (run_loop_total (ixfr_body id (read_deadline t))) with
    (rds := rds) (fuel := S (length rds)) (l := (true, 0%Z)) (t := t)
    as [[[t' evs] how] E];
    [intros; rewrite ixfr_body_dry; eauto|lia|].
  rewrite E; simpl; eauto 6.
Qed.

(** ** inAxfr on replies that arrive well *)

Lemma axfr_body_streaming id timeout t rd m :
  tsigTimersOnly t = true -> delivers t id rd m ->
  axfr_body id timeout false t rd
  = if isSOALast m then Stop t (round timeout true m) Returned
    else Continue false t (round timeout true m).
Proof.
  intros Hflag [Hrd Hid]. unfold axfr_body, axfr_streaming.
  rewrite Hrd, Hid, Z.eqb_refl. simpl.
  rewrite (set_tsigTimersOnly_same t Hflag), Hflag.
  destruct (isSOALast m); reflexivity.
Qed.

Lemma axfr_body_first id timeout t rd m :
  delivers t id rd m -> isSOAFirst m = true ->
  axfr_body id timeout true t rd
  = if (length (Answer m) =? 1)%nat then
      Continue false (set_tsigTimersOnly true t) (round timeout (tsigTimersOnly t) m)
    else if isSOALast m then
      Stop (set_tsigTimersOnly true t) (round timeout (tsigTimersOnly t) m) Returned
    else Continue false (set_tsigTimersOnly true t) (round timeout (tsigTimersOnly t) m).
Proof.
  intros [Hrd Hid] Hsoa. unfold axfr_body, axfr_streaming.
  rewrite Hrd, Hid, Z.eqb_refl, Hsoa. simpl.
  destruct (length (Answer m) =? 1)%nat; [reflexivity|].
  destruct (isSOALast m); reflexivity.
Qed.

(** The streaming state runs through replies without a trailing SOA and
    stops on the first reply that has one; what follows is not read. *)
Lemma axfr_streaming_stops id timeout t rpre pre rk mk :
  tsigTimersOnly t = true ->
  Forall2 (delivers t id) rpre pre ->
  Forall (fun m => isSOALast m = false) pre ->
  delivers t id rk mk -> isSOALast mk = true ->
  forall fuel rest, length rpre < fuel ->
  run_loop (axfr_body id timeout) fuel false t (rpre ++ rk :: rest)
  = Some (t, rounds timeout true pre ++ round timeout true mk, Returned).
Proof.
  intros Hflag Hpre; induction Hpre as [|rd m rpre pre Hrd Hpre IH];
    intros Hnot Hk Hlast [|fuel] rest Hlen; simpl in Hlen; try lia.
  - simpl app. erewrite run_loop_stop; [reflexivity|].
    rewrite (axfr_body_streaming _ _ _ _ _ Hflag Hk), Hlast. reflexivity.
  - inversion Hnot as [|? ? Hm Hnot']; subst.
    simpl app. erewrite run_loop_continue.
    2:{ rewrite (axfr_body_streaming _ _ _ _ _ Hflag Hrd), Hm. reflexivity. }
    rewrite IH by (auto; lia). reflexivity.
Qed.

(** Without such a reply every message is passed on and the transfer goes
    on reading, until a read fails. *)
Lemma axfr_streaming_dry id timeout t rds ms :
  tsigTimersOnly t = true ->
  Forall2 (delivers t id) rds ms ->
  Forall (fun m => isSOALast m = false) ms ->
  forall fuel, length rds < fuel ->
  run_loop (axfr_body id timeout) fuel false t rds
  = Some (t, rounds timeout true ms ++ failed_round timeout true (ErrExt "i/o timeout"),
          Returned).
Proof.
  intros Hflag Hall; induction Hall as [|rd m rds ms Hrd Hall IH];
    intros Hnot [|fuel] Hlen; simpl in Hlen; try lia.
  - erewrite run_loop_dry; [|apply axfr_body_dry]. rewrite Hflag. reflexivity.
  - inversion Hnot as [|? ? Hm Hnot']; subst.
    erewrite run_loop_continue.
    2:{ rewrite (axfr_body_streaming _ _ _ _ _ Hflag Hrd), Hm. reflexivity. }
    rewrite IH by (auto; lia). reflexivity.
Qed.

Lemma read_deadline_set_tsigTimersOnly b t :
  read_deadline (set_tsigTimersOnly b t) = read_deadline t.
Proof. reflexivity. Qed.

(** C1. inAxfr on replies that all arrive without error under the query's
    id, the first of them starting with a SOA: every message read is
    emitted as one error-free envelope, in order of arrival.
    - A first message with more than one record and a SOA at its end is
      the whole transfer: one envelope, then the closes, nothing further
      is read.
    - Otherwise (the first message is the lone opening SOA, whose last
      record is not tested, or it has no SOA at its end) the first
      envelope is followed by more: the transfer stops on the first later
      message whose last record is a SOA, and reads nothing after it; when
      no later message has one, every message is passed on and the next
      read is attempted. *)
Theorem inAxfr_stream (t : Transfer) (id : Z) (rd0 : RawRead) (m0 : Msg) :
  delivers t id rd0 m0 -> isSOAFirst m0 = true ->
  let t1 := set_tsigTimersOnly true t in
  let timeout := read_deadline t in
  let opening := round timeout (tsigTimersOnly t) m0 in
  (length (Answer m0) <> 1 -> isSOALast m0 = true ->
   forall rest,
     inAxfr t id (rd0 :: rest) = Some (t1, opening ++ deferred, Returned))
  /\ (length (Answer m0) = 1 \/ isSOALast m0 = false ->
      (forall rpre pre rk mk rest,
         Forall2 (delivers t1 id) rpre pre ->
         Forall (fun m => isSOALast m = false) pre ->
         delivers t1 id rk mk -> isSOALast mk = true ->
         inAxfr t id (rd0 :: rpre ++ rk :: rest)
         = Some (t1, (opening ++ rounds timeout true pre ++ round timeout true mk)
                     ++ deferred, Returned))
      /\ (forall rds ms,
         Forall2 (delivers t1 id) rds ms ->
         Forall (fun m => isSOALast m = false) ms ->
         inAxfr t id (rd0 :: rds)
         = Some (t1, (opening ++ rounds timeout true ms
                      ++ failed_round timeout true (ErrExt "i/o timeout"))
                     ++ deferred, Returned))).
Proof.
  intros Hrd0 Hsoa t1 timeout opening.
  pose proof (axfr_body_first id timeout t rd0 m0 Hrd0 Hsoa) as Hfirst.
  split.
  - intros Hlen Hlast rest. unfold inAxfr.
    apply Nat.eqb_neq in Hlen. rewrite Hlen, Hlast in Hfirst.
    erewrite run_loop_stop by exact Hfirst. reflexivity.
  - intros Hgo.
    assert (axfr_body id timeout true t rd0 = Continue false t1 opening) as Hcont.
    { rewrite Hfirst. destruct Hgo as [Hlen|Hlast].
      - apply Nat.eqb_eq in Hlen. rewrite Hlen. reflexivity.
      - rewrite Hlast. destruct (length (Answer m0) =? 1)%nat; reflexivity. }
    split.
    + intros rpre pre rk mk rest Hpre Hnot Hk Hlast. unfold inAxfr.
      erewrite run_loop_continue by exact Hcont.
      rewrite (axfr_streaming_stops id timeout t1 rpre pre rk mk) by
        (auto; simpl; rewrite ?length_app; simpl; lia).
      reflexivity.
    + intros rds ms Hall Hnot. unfold inAxfr.
      erewrite run_loop_continue by exact Hcont.
      rewrite (axfr_streaming_dry id timeout t1 rds ms) by (auto; simpl; lia).
      reflexivity.
Qed.

(** ** What the passes of the loops have in common *)

Lemma run_loop_events {L : Type} (body : L -> Transfer -> RawRead -> Step L)
    (P : Event -> Prop) :
  (forall l t rd, Forall P (step_events (body l t rd))) ->
  forall fuel l t rds t' evs how,
    run_loop body fuel l t rds = Some (t', evs, how) -> Forall P evs.
Proof.
  intros Hbody fuel; induction fuel as [|fuel IH]; intros l t rds t' evs how; [discriminate|].
  simpl. destruct (next_read rds) as [rd rest].
  pose proof (Hbody l t rd) as Hstep.
  destruct (body l t rd) as [l1 t1 evs1|t1 evs1 how1]; simpl in Hstep.
  - destruct (run_loop body fuel l1 t1 rest) as [[[t2 evs2] how2]|] eqn:E; [|discriminate].
    simpl. intros [= <- <- <-]. apply Forall_app; eauto.
  - intros [= <- <- <-]. exact Hstep.
Qed.

Lemma axfr_streaming_events m evs first t :
  Forall (fun e => is_loop_event e = true) evs ->
  Forall (fun e => is_loop_event e = true) (step_events (axfr_streaming m evs first t)).
Proof.
  intros Hevs. unfold axfr_streaming.
  destruct first; simpl; [exact Hevs|].
  destruct (isSOALast m); simpl; apply Forall_app; split; try exact Hevs; repeat constructor.
Qed.

Lemma axfr_body_events id timeout first t rd :
  Forall (fun e => is_loop_event e = true) (step_events (axfr_body id timeout first t rd)).
Proof.
  unfold axfr_body.
  destruct (ReadMsg t rd) as [[m|] [e|]]; simpl; repeat constructor.
  destruct (negb _); simpl; [repeat constructor|].
  destruct first; simpl; [|apply axfr_streaming_events; repeat constructor].
  destruct (negb _); simpl; [repeat constructor|].
  destruct (_ =? _)%nat; simpl; [repeat constructor|].
  apply axfr_streaming_events; repeat constructor.
Qed.

Lemma ixfr_streaming_events m evs first serial t :
  Forall (fun e => is_loop_event e = true) evs ->
  Forall (fun e => is_loop_event e = true) (step_events (ixfr_streaming m evs first serial t)).
Proof.
  intros Hevs. unfold ixfr_streaming.
  destruct first; simpl; [exact Hevs|].
  destruct (last (Answer m)) as [[h v|ts|h]|]; simpl;
    try (apply Forall_app; split; [exact Hevs|repeat constructor]); [|exact Hevs].
  destruct (v =? serial)%Z; simpl; apply Forall_app; split; try exact Hevs; repeat constructor.
Qed.

Lemma ixfr_body_events id timeout l t rd :
  Forall (fun e => is_loop_event e = true) (step_events (ixfr_body id timeout l t rd)).
Proof.
  unfold ixfr_body. destruct l as [first serial].
  destruct (ReadMsg t rd) as [[m|] [e|]]; simpl; repeat constructor.
  destruct (negb _); simpl; [repeat constructor|].
  destruct first; simpl; [|apply ixfr_streaming_events; repeat constructor].
  destruct (_ && _); simpl; [repeat constructor|].
  destruct (negb _); simpl; [repeat constructor|].
  destruct (Answer m) as [|[h v|ts|h] more] eqn:EA; simpl; repeat constructor.
  apply ixfr_streaming_events; repeat constructor.
Qed.

Lemma loop_events_no_close evs :
  Forall (fun e => is_loop_event e = true) evs -> closes evs = [].
Proof.
  induction 1 as [|e evs He _ IH]; [reflexivity|].
  unfold closes in *. simpl. destruct e; simpl in *; try discriminate; exact IH.
Qed.

Lemma loop_events_no_write_deadline evs :
  Forall (fun e => is_loop_event e = true) evs ->
  Forall (fun e => is_write_deadline e = false) evs.
Proof.
  intros Hloop. eapply Forall_impl; [exact Hloop|].
  intros []; simpl; congruence.
Qed.

(** C3. A failed read in inIxfr: where inAxfr sends the envelope that
    carries the error, inIxfr evaluates [in.Answer] on the nil message that
    [ReadMsg] returned with the error. No envelope is sent: the task
    panics, and only the deferred closes run. *)
Theorem inIxfr_read_failure_panics (t : Transfer) (id : Z) (e : error)
    (rest : list RawRead) :
  let failed := {| rd_p := []; rd_err := Some e |} in
  inIxfr t id (failed :: rest)
  = Some (t, [EvSetReadDeadline (read_deadline t); EvReadMsg (tsigTimersOnly t)]
             ++ deferred, Panicked "nil pointer dereference")
  /\ inAxfr t id (failed :: rest)
     = Some (t, failed_round (read_deadline t) (tsigTimersOnly t) e ++ deferred, Returned).
Proof. split; reflexivity. Qed.

(** C4 (amended). Every run of inAxfr and of inIxfr comes to an end, by
    return or by panic, and its last two events are the closes: first the
    envelope stream, then the connection. Nothing is closed before. *)
Theorem closes_stream_then_connection (t : Transfer) (id : Z) (rds : list RawRead) :
  (exists t' evs how,
     inAxfr t id rds = Some (t', evs ++ [EvCloseChan; EvClose], how) /\ closes evs = [])
  /\ (exists t' evs how,
     inIxfr t id rds = Some (t', evs ++ [EvCloseChan; EvClose], how) /\ closes evs = []).
Proof.
  split.
  - destruct (inAxfr_run t id rds) as (t' & evs & how & R & E).
    exists t', evs, how. split; [exact E|].
    eapply loop_events_no_close, run_loop_events, R. apply axfr_body_events.
  - destruct (inIxfr_run t id rds) as (t' & evs & how & R & E).
    exists t', evs, how. split; [exact E|].
    eapply loop_events_no_close, run_loop_events, R. apply ixfr_body_events.
Qed.

(** ** The timers-only flag *)

Lemma axfr_body_flag id timeout first t rd :
  flag_step t (axfr_body id timeout first t rd).
Proof.
  unfold flag_step, axfr_body, axfr_streaming.
  destruct (ReadMsg t rd) as [[m|] [e|]]; simpl; auto.
  destruct (negb _); simpl; auto.
  destruct first; simpl.
  - destruct (negb _); simpl; auto.
    destruct (_ =? _)%nat; simpl; auto.
    destruct (isSOALast m); simpl; auto.
  - destruct (isSOALast m); simpl; auto.
Qed.

Lemma ixfr_streaming_flag m timeout serial t :
  flag_step t (ixfr_streaming m [EvSetReadDeadline timeout; EvReadMsg (tsigTimersOnly t)]
                 false serial t).
Proof.
  unfold flag_step, ixfr_streaming. simpl.
  destruct (last (Answer m)) as [[h v|ts|h]|]; simpl; auto.
  destruct (v =? serial)%Z; simpl; auto.
Qed.

Lemma ixfr_body_flag id timeout l t rd :
  flag_step t (ixfr_body id timeout l t rd).
Proof.
  unfold ixfr_body. destruct l as [first serial].
  destruct (ReadMsg t rd) as [[m|] [e|]]; try (split; simpl; auto; fail).
  destruct (negb _); [split; simpl; auto|].
  destruct first; [|apply ixfr_streaming_flag].
  destruct (_ && _); [split; simpl; auto|].
  destruct (negb _); [split; simpl; auto|].
  destruct (Answer m) as [|[h v|ts|h] more]; try (split; simpl; auto; fail).
  apply ixfr_streaming_flag.
Qed.

(** Along a run the first [ReadMsg] sees the flag as the session brought
    it and every later one sees it set; the session comes out untouched
    (and then only one message was read) or with the flag set. *)
Lemma run_loop_flags {L : Type} (body : L -> Transfer -> RawRead -> Step L) :
  (forall l t rd, flag_step t (body l t rd)) ->
  forall fuel l t rds t' evs how,
    run_loop body fuel l t rds = Some (t', evs, how) ->
    exists n, read_flags evs = tsigTimersOnly t :: replicate n true
              /\ (n = 0 /\ t' = t \/ t' = set_tsigTimersOnly true t).
Proof.
  intros Hbody fuel; induction fuel as [|fuel IH]; intros l t rds t' evs how; [discriminate|].
  simpl. destruct (next_read rds) as [rd rest].
  pose proof (Hbody l t rd) as [Hreads Hstate].
  destruct (body l t rd) as [l1 t1 evs1|t1 evs1 how1]; simpl in Hreads.
  - destruct (run_loop body fuel l1 t1 rest) as [[[t2 evs2] how2]|] eqn:E; [|discriminate].
    simpl. intros [= <- <- <-].
    destruct (IH _ _ _ _ _ _ E) as (n & Hn & Ht2). subst t1.
    exists (S n). unfold read_flags in *. rewrite omap_app, Hreads, Hn. simpl.
    split; [reflexivity|]. right. destruct Ht2 as [[_ ->]| ->]; reflexivity.
  - intros [= <- <- <-]. exists 0. split; [exact Hreads|].
    destruct Hstate as [->| ->]; auto.
Qed.

Lemma read_flags_deferred evs : read_flags (evs ++ deferred) = read_flags evs.
Proof. unfold read_flags. rewrite omap_app. simpl. apply app_nil_r. Qed.

Lemma WriteMsg_flag t m wr :
  tsigTimersOnly (WriteMsg t m wr).1.1 = tsigTimersOnly t.
Proof.
  unfold WriteMsg, conn_Write.
  destruct (IsTsig m) as [ts|], (TsigSecret t) as [tbl|];
    try (destruct (Pack m) as [out [e|]]; reflexivity).
  destruct (tbl !! _) as [secret|]; [|reflexivity].
  destruct (TsigGenerate _ _ _ _) as [[out mac] [e|]]; reflexivity.
Qed.

(** ** The channel *)

(** C6. A message that carries a TSIG record, on a session whose secret
    table is configured and has no entry under the record's name: [ReadMsg]
    returns ErrSecret once the message is decoded, and [WriteMsg] returns
    ErrSecret, writes nothing and leaves the session (its running MAC
    included) as it was. *)
Theorem unknown_key (t : Transfer) (m : Msg) (ts : TSIG) (secrets : gmap string string) :
  IsTsig m = Some ts -> TsigSecret t = Some secrets -> secrets !! Name (Hdr ts) = None ->
  (forall rd, (rd_p rd <> [] \/ rd_err rd = None) -> Unpack (rd_p rd) = inl m ->
     ReadMsg t rd = (Some m, Some ErrSecret))
  /\ (forall wr, WriteMsg t m wr = (t, [], Some ErrSecret)).
Proof.
  intros Hts Htbl Hkey. split.
  - intros rd Hread Hm. unfold ReadMsg. rewrite Hm, Hts, Htbl, Hkey.
    destruct (rd_err rd) as [e|], (rd_p rd) as [|b p]; try reflexivity.
    destruct Hread; congruence.
  - intros wr. unfold WriteMsg. rewrite Hts, Htbl, Hkey. reflexivity.
Qed.

(** The channel's part in a TSIG round trip, the codec and the primitive
    being taken for granted. A message that carries a TSIG record under a
    configured key is
    written by a session [tw]; the bytes are read by a session [tr] that
    holds the same table, the same running MAC and the same flag as [tw]
    held when it signed. Given that signing succeeded, that the TSIG
    primitive accepts what it produced under the same key, MAC and flag,
    and that the codec decodes the bytes to a message [m'] with the same
    key name and answer section, [ReadMsg] returns [m'] without error. *)
Theorem tsig_round_trip (tw tr : Transfer) (m m' : Msg) (ts ts' : TSIG)
    (secrets : gmap string string) (secret mac' : string) (out : bytes) :
  IsTsig m = Some ts -> TsigSecret tw = Some secrets ->
  secrets !! Name (Hdr ts) = Some secret ->
  TsigGenerate m secret (tsigRequestMAC (Conn tw)) (tsigTimersOnly tw) = (out, mac', None) ->
  TsigVerify out secret (tsigRequestMAC (Conn tw)) (tsigTimersOnly tw) = None ->
  Unpack out = inl m' -> IsTsig m' = Some ts' -> Name (Hdr ts') = Name (Hdr ts) ->
  Answer m' = Answer m ->
  TsigSecret tr = TsigSecret tw -> tsigRequestMAC (Conn tr) = tsigRequestMAC (Conn tw) ->
  tsigTimersOnly tr = tsigTimersOnly tw ->
  WriteMsg tw m None = (set_tsigRequestMAC mac' tw, [EvWrite out], None)
  /\ ReadMsg tr {| rd_p := out; rd_err := None |} = (Some m', None)
  /\ Answer m' = Answer m.
Proof.
  intros Hts Htbl Hkey Hgen Hver Hdec Hts' Hname Hans Etbl Emac Eflag.
  split; [|split; [|exact Hans]].
  - unfold WriteMsg. rewrite Hts, Htbl, Hkey, Hgen. reflexivity.
  - unfold ReadMsg. simpl. rewrite Hdec, Hts', Etbl, Htbl, Hname, Hkey, Emac, Eflag, Hver.
    destruct out; reflexivity.
Qed.

(** ** The entry call *)

(** [WriteMsg] writes at most once, and once when it returns no error. *)
Lemma WriteMsg_events t m wr :
  match WriteMsg t m wr with
  | (_, evs, None) => exists out, evs = [EvWrite out]
  | (_, evs, Some _) => evs = [] \/ exists out, evs = [EvWrite out]
  end.
Proof.
  unfold WriteMsg, conn_Write.
  destruct (IsTsig m) as [ts|], (TsigSecret t) as [tbl|];
    try solve [destruct (Pack m) as [out [e|]]; [auto|destruct wr; eauto]].
  destruct (tbl !! _) as [secret|]; [|auto].
  destruct (TsigGenerate _ _ _ _) as [[out mac] [e|]]; [auto|destruct wr; eauto].
Qed.

Lemma WriteMsg_no_write_deadline t m wr :
  Forall (fun e => is_write_deadline e = false) (WriteMsg t m wr).1.2.
Proof.
  pose proof (WriteMsg_events t m wr) as Hev.
  destruct (WriteMsg t m wr) as [[t' evs] [e|]]; simpl.
  - destruct Hev as [->|[out ->]]; repeat constructor.
  - destruct Hev as [out ->]; repeat constructor.
Qed.

Lemma inAxfr_no_write_deadline t id rds :
  exists t' evs how,
    inAxfr t id rds = Some (t', evs, how)
    /\ Forall (fun e => is_write_deadline e = false) evs.
Proof.
  destruct (inAxfr_run t id rds) as (t' & evs & how & R & E).
  exists t', (evs ++ deferred), how. split; [exact E|].
  apply Forall_app. split; [|repeat constructor].
  eapply loop_events_no_write_deadline, run_loop_events, R. apply axfr_body_events.
Qed.

Lemma inIxfr_no_write_deadline t id rds :
  exists t' evs how,
    inIxfr t id rds = Some (t', evs, how)
    /\ Forall (fun e => is_write_deadline e = false) evs.
Proof.
  destruct (inIxfr_run t id rds) as (t' & evs & how & R & E).
  exists t', (evs ++ deferred), how. split; [exact E|].
  apply Forall_app. split; [|repeat constructor].
  eapply loop_events_no_write_deadline, run_loop_events, R. apply ixfr_body_events.
Qed.

(** [In] returns on every input, and its run never sets a write deadline. *)
Lemma In_no_write_deadline (t : Transfer) (q : Msg) (a : string) (net : Net) :
  exists r, In t q a net = Some r
            /\ Forall (fun e => is_write_deadline e = false) (in_trace r).
Proof.
  unfold In.
  destruct (dial_err net) as [e|]; [eexists; split; [reflexivity|repeat constructor]|].
  pose proof (WriteMsg_no_write_deadline (set_Conn new_Conn t) q (write_err net)) as Hw.
  destruct (WriteMsg _ q _) as [[t1 evw] [e|]]; simpl in Hw.
  { eexists; split; [reflexivity|]. simpl. constructor; [reflexivity|exact Hw]. }
  destruct (Question q) as [|q0 qs].
  { eexists; split; [reflexivity|]. simpl. constructor; [reflexivity|exact Hw]. }
  destruct (Qtype q0 =? TypeAXFR)%Z.
  { destruct (inAxfr_no_write_deadline t1 (Id q) (incoming net)) as (t' & evs & how & E & Hev).
    rewrite E. eexists; split; [reflexivity|]. simpl.
    constructor; [reflexivity|]. apply Forall_app; split; assumption. }
  destruct (Qtype q0 =? TypeIXFR)%Z.
  { destruct (inIxfr_no_write_deadline t1 (Id q) (incoming net)) as (t' & evs & how & E & Hev).
    rewrite E. eexists; split; [reflexivity|]. simpl.
    constructor; [reflexivity|]. apply Forall_app; split; assumption. }
  eexists; split; [reflexivity|]. simpl. constructor; [reflexivity|exact Hw].
Qed.

(** C10. A query whose first question is of neither transfer type, with
    the dial and the write of the query succeeding: [In] returns a channel
    and no error; its whole run is the dial and that one write. No state
    machine is started, so no reply is read, no envelope is sent, and
    neither the channel nor the connection is ever closed. *)
Theorem In_other_qtype (t t' : Transfer) (q : Msg) (a : string) (net : Net)
    (q0 : DnsQuestion) (qs : list DnsQuestion) (evw : list Event) :
  dial_err net = None ->
  WriteMsg (set_Conn new_Conn t) q (write_err net) = (t', evw, None) ->
  Question q = q0 :: qs -> Qtype q0 <> TypeAXFR -> Qtype q0 <> TypeIXFR ->
  exists r out,
    In t q a net = Some r
    /\ in_env r = true /\ in_err r = None /\ in_bg r = BgNone /\ in_t r = t'
    /\ in_trace r
       = [EvDial a (if (DialTimeout t =? 0)%Z then dnsTimeout else DialTimeout t);
          EvWrite out]
    /\ envelopes (in_trace r) = [] /\ closes (in_trace r) = []
    /\ read_flags (in_trace r) = [].
Proof.
  intros Hdial Hwrite Hq Haxfr Hixfr.
  pose proof (WriteMsg_events (set_Conn new_Conn t) q (write_err net)) as Hev.
  rewrite Hwrite in Hev. destruct Hev as [out ->].
  apply Z.eqb_neq in Haxfr, Hixfr.
  eexists; exists out. unfold In.
  rewrite Hdial, Hwrite, Hq, Haxfr, Hixfr. simpl. repeat split; reflexivity.
Qed.

(** ** The outbound engine *)

Lemma Out_loop_written ch : forall r wres k x,
  written (Out_loop r ch wres).2 !! k = Some x ->
  Answer x = Answer r ++ concat (map E_RR (take (S k) ch)).
Proof.
  induction ch as [|e ch IH]; intros r wres k x; simpl; [discriminate|].
  destruct (hd None wres) as [err|].
  - destruct k; simpl; [|discriminate]. intros [= <-]. simpl.
    rewrite ?take_0. simpl. rewrite ?app_nil_r. reflexivity.
  - destruct (Out_loop _ ch (tl wres)) as [r' evs] eqn:E. simpl.
    destruct k as [|k]; simpl.
    + intros [= <-]. simpl. rewrite ?take_0. simpl. rewrite ?app_nil_r. reflexivity.
    + intros Hx. specialize (IH (set_Answer (Answer r ++ E_RR e) r) (tl wres) k x).
      rewrite E in IH. rewrite (IH Hx). simpl. rewrite <- app_assoc. reflexivity.
Qed.

Lemma Out_loop_no_close ch : forall r wres, closes (Out_loop r ch wres).2 = [].
Proof.
  induction ch as [|e ch IH]; intros r wres; simpl; [reflexivity|].
  destruct (hd None wres) as [err|]; [reflexivity|].
  specialize (IH (set_Answer (Answer r ++ E_RR e) r) (tl wres)).
  destruct (Out_loop _ ch (tl wres)) as [r' evs]. exact IH.
Qed.

Lemma Out_loop_no_write_deadline ch : forall r wres,
  Forall (fun e => is_write_deadline e = false) (Out_loop r ch wres).2.
Proof.
  induction ch as [|e ch IH]; intros r wres; simpl; [repeat constructor|].
  destruct (hd None wres) as [err|]; [repeat constructor|].
  specialize (IH (set_Answer (Answer r ++ E_RR e) r) (tl wres)).
  destruct (Out_loop _ ch (tl wres)) as [r' evs]. constructor; [reflexivity|exact IH].
Qed.

(** With every write succeeding the task writes once per envelope, then
    switches the writer and clears the answer section. *)
Lemma Out_loop_all_written ch : forall r wres,
  Forall (fun w => w = None) wres ->
  let '(r', evs) := Out_loop r ch wres in
  evs = map EvWriteMsg (written evs) ++ [EvTsigTimersOnly true]
  /\ length (written evs) = length ch /\ Answer r' = [].
Proof.
  induction ch as [|e ch IH]; intros r wres Hok; simpl; [auto|].
  assert (hd None wres = None /\ Forall (fun w => w = None) (tl wres)) as [-> Htl].
  { destruct Hok as [|w wres -> Hok]; simpl; auto. }
  specialize (IH (set_Answer (Answer r ++ E_RR e) r) (tl wres) Htl).
  destruct (Out_loop _ ch (tl wres)) as [r' evs].
  destruct IH as (Hevs & Hlen & Hans). simpl.
  rewrite <- Hevs, Hlen. auto.
Qed.

(** The first write that fails is the last thing the task does: the
    writer is not switched and the answer section stays as written. *)
Lemma Out_loop_write_fails ch : forall r wres j err more,
  wres = replicate j None ++ Some err :: more -> j < length ch ->
  let '(r', evs) := Out_loop r ch wres in
  evs = map EvWriteMsg (written evs)
  /\ length (written evs) = S j
  /\ Answer r' = Answer r ++ concat (map E_RR (take (S j) ch)).
Proof.
  induction ch as [|e ch IH]; intros r wres j err more -> Hj; simpl in *; [lia|].
  destruct j as [|j]; simpl.
  - rewrite ?take_0. simpl. rewrite ?app_nil_r. auto.
  - specialize (IH (set_Answer (Answer r ++ E_RR e) r)
                  (replicate j None ++ Some err :: more) j err more eq_refl).
    destruct (Out_loop _ ch _) as [r' evs].
    destruct IH as (Hevs & Hlen & Hans); [lia|]. simpl.
    rewrite <- Hevs, Hlen, Hans. simpl. rewrite <- app_assoc. auto.
Qed.

(** C7 (amended). [Out] returns no error at once. Its task writes the
    reply once per envelope taken from the source, and the k-th reply
    written carries the records of the envelopes 1 to k, in order. While
    every write succeeds there is one write per envelope, and when the
    source is closed the writer is switched to timers-only mode and the
    answer section is cleared. A write that fails ends the task on the
    spot: no later envelope is written, the writer is not switched and the
    answer section is not cleared. The task never closes anything. *)
Theorem Out_accumulates (t : Transfer) (wres : list (option error)) (q : Msg)
    (ch : list Envelope) :
  let r' := (Out t wres q ch).2.1 in
  let evs := (Out t wres q ch).2.2 in
  (Out t wres q ch).1 = None
  /\ (forall k x, written evs !! k = Some x ->
       Answer x = concat (map E_RR (take (S k) ch)))
  /\ closes evs = []
  /\ (Forall (fun w => w = None) wres ->
      evs = map EvWriteMsg (written evs) ++ [EvTsigTimersOnly true]
      /\ length (written evs) = length ch /\ Answer r' = [])
  /\ (forall j err more,
      wres = replicate j None ++ Some err :: more -> j < length ch ->
      evs = map EvWriteMsg (written evs)
      /\ length (written evs) = S j
      /\ Answer r' = concat (map E_RR (take (S j) ch))).
Proof.
  unfold Out. simpl. set (r0 := set_Authoritative true (SetReply new_Msg q)).
  split; [reflexivity|]. split; [|split; [|split]].
  - intros k x Hx. apply Out_loop_written in Hx. exact Hx.
  - apply Out_loop_no_close.
  - intros Hok. pose proof (Out_loop_all_written ch r0 wres Hok) as Hall.
    destruct (Out_loop r0 ch wres) as [r' evs]. exact Hall.
  - intros j err more Hw Hj.
    pose proof (Out_loop_write_fails ch r0 wres j err more Hw Hj) as Hf.
    destruct (Out_loop r0 ch wres) as [r' evs]. exact Hf.
Qed.

(** ** inIxfr on replies that arrive well and carry records *)

Lemma ixfr_body_streaming id timeout serial t rd m :
  tsigTimersOnly t = true -> delivers t id rd m -> Answer m <> [] ->
  ixfr_body id timeout (false, serial) t rd
  = if ixfr_ends serial m then Stop t (round timeout true m) Returned
    else Continue (false, serial) t (round timeout true m).
Proof.
  intros Hflag [Hrd Hid] Hne. unfold ixfr_body, ixfr_streaming, ixfr_ends.
  rewrite Hrd, Hid, Z.eqb_refl. simpl.
  rewrite (set_tsigTimersOnly_same t Hflag), Hflag.
  destruct (last (Answer m)) as [[h v|ts|h]|] eqn:El; try reflexivity.
  apply last_None in El. contradiction.
Qed.

(** A later reply without records: the index [len(in.Answer)-1] is out of
    range. *)
Lemma ixfr_body_empty_answer id timeout serial t rd m :
  delivers t id rd m -> Answer m = [] ->
  ixfr_body id timeout (false, serial) t rd
  = Stop (set_tsigTimersOnly true t) [EvSetReadDeadline timeout; EvReadMsg (tsigTimersOnly t)]
      (Panicked "index out of range").
Proof.
  intros [Hrd Hid] Hnil. unfold ixfr_body, ixfr_streaming.
  rewrite Hrd, Hid, Z.eqb_refl, Hnil. reflexivity.
Qed.

(** The streaming state passes on every reply that carries records and
    does not end on the SOA of the kept serial. *)
Lemma ixfr_streaming_go id timeout serial t rpre pre :
  tsigTimersOnly t = true ->
  Forall2 (delivers t id) rpre pre ->
  Forall (fun m => Answer m <> [] /\ ixfr_ends serial m = false) pre ->
  forall fuel rest,
    run_loop (ixfr_body id timeout) (length rpre + fuel) (false, serial) t (rpre ++ rest)
    = after (rounds timeout true pre)
        (run_loop (ixfr_body id timeout) fuel (false, serial) t rest).
Proof.
  intros Hflag Hpre; induction Hpre as [|rd m rpre pre Hrd Hpre IH];
    intros Hnot fuel rest.
  - simpl. rewrite after_nil. reflexivity.
  - inversion Hnot as [|? ? [Hne Hm] Hnot']; subst.
    simpl length. simpl app. rewrite Nat.add_succ_l. erewrite run_loop_continue.
    2:{ rewrite (ixfr_body_streaming _ _ _ _ _ _ Hflag Hrd Hne), Hm. reflexivity. }
    rewrite IH by assumption. rewrite after_app. reflexivity.
Qed.

Lemma ixfr_streaming_stops id timeout serial t rpre pre rk mk :
  tsigTimersOnly t = true ->
  Forall2 (delivers t id) rpre pre ->
  Forall (fun m => Answer m <> [] /\ ixfr_ends serial m = false) pre ->
  delivers t id rk mk -> ixfr_ends serial mk = true ->
  forall fuel rest,
    run_loop (ixfr_body id timeout) (length rpre + S fuel) (false, serial) t
      (rpre ++ rk :: rest)
    = Some (t, rounds timeout true pre ++ round timeout true mk, Returned).
Proof.
  intros Hflag Hpre Hnot Hk Hlast fuel rest.
  rewrite (ixfr_streaming_go _ _ _ _ _ _ Hflag Hpre Hnot).
  erewrite run_loop_stop; [reflexivity|].
  rewrite (ixfr_body_streaming _ _ _ _ _ _ Hflag Hk), Hlast; [reflexivity|].
  intros Hnil. unfold ixfr_ends in Hlast. rewrite Hnil in Hlast. discriminate.
Qed.

Lemma ixfr_streaming_panics id timeout serial t rpre pre rk mk :
  tsigTimersOnly t = true ->
  Forall2 (delivers t id) rpre pre ->
  Forall (fun m => Answer m <> [] /\ ixfr_ends serial m = false) pre ->
  delivers t id rk mk -> Answer mk = [] ->
  forall fuel rest,
    run_loop (ixfr_body id timeout) (length rpre + S fuel) (false, serial) t
      (rpre ++ rk :: rest)
    = Some (t, rounds timeout true pre ++ [EvSetReadDeadline timeout; EvReadMsg true],
            Panicked "index out of range").
Proof.
  intros Hflag Hpre Hnot Hk Hnil fuel rest.
  rewrite (ixfr_streaming_go _ _ _ _ _ _ Hflag Hpre Hnot).
  erewrite run_loop_stop; [|apply (ixfr_body_empty_answer _ _ _ _ _ _ Hk Hnil)].
  simpl. rewrite (set_tsigTimersOnly_same t Hflag), Hflag. reflexivity.
Qed.

(** The first pass of inIxfr on a message of several records that starts
    with a SOA: the serial is kept, and the message goes through the test
    for the end of the transfer. *)
Lemma ixfr_body_first id timeout t rd m h serial more :
  delivers t id rd m -> isSOAFirst m = true ->
  Answer m = SOA h serial :: more -> more <> [] ->
  ixfr_body id timeout (true, 0%Z) t rd
  = if ixfr_ends serial m
    then Stop (set_tsigTimersOnly true t) (round timeout (tsigTimersOnly t) m) Returned
    else Continue (false, serial) (set_tsigTimersOnly true t)
           (round timeout (tsigTimersOnly t) m).
Proof.
  intros [Hrd Hid] Hsoa HA Hmore.
  unfold ixfr_body, ixfr_streaming, ixfr_ends.
  rewrite Hrd, Hid, Z.eqb_refl, Hsoa, HA. simpl negb.
  replace (length (SOA h serial :: more) =? 1)%nat with false
    by (destruct more; [contradiction|reflexivity]).
  simpl andb. cbv iota.
  destruct (last (SOA h serial :: more)) as [[h' v|ts|h']|] eqn:El; try reflexivity.
  apply last_None in El. discriminate.
Qed.

(** C2. inIxfr on replies that arrive without error under the query's id:
    the first message has several records, starts with a SOA of serial
    [serial] and does not end the transfer; the later ones carry records
    and do not end it either, until a reply comes without any answer
    record. Every message before that reply is emitted, the flag is set,
    and on that reply the index [len(in.Answer)-1] is out of range: the
    task panics, no envelope is sent for the reply, nothing after it is
    read, and the deferred closes run. *)
Theorem inIxfr_empty_answer_panics (t : Transfer) (id : Z) (rd0 : RawRead) (m0 : Msg)
    (h : RR_Header) (serial : Z) (more : list RR) :
  delivers t id rd0 m0 -> isSOAFirst m0 = true ->
  Answer m0 = SOA h serial :: more -> more <> [] -> ixfr_ends serial m0 = false ->
  let t1 := set_tsigTimersOnly true t in
  let timeout := read_deadline t in
  forall rpre pre rk mk rest,
    Forall2 (delivers t1 id) rpre pre ->
    Forall (fun m => Answer m <> [] /\ ixfr_ends serial m = false) pre ->
    delivers t1 id rk mk -> Answer mk = [] ->
    inIxfr t id (rd0 :: rpre ++ rk :: rest)
    = Some (t1, (round timeout (tsigTimersOnly t) m0 ++ rounds timeout true pre
                 ++ [EvSetReadDeadline timeout; EvReadMsg true])
                ++ deferred, Panicked "index out of range").
Proof.
  intros Hrd0 Hsoa HA Hmore Hgo t1 timeout rpre pre rk mk rest Hpre Hnot Hk Hnil.
  pose proof (ixfr_body_first id timeout t rd0 m0 h serial more Hrd0 Hsoa HA Hmore)
    as Hfirst.
  rewrite Hgo in Hfirst. unfold inIxfr.
  erewrite run_loop_continue by exact Hfirst.
  replace (length (rd0 :: rpre ++ rk :: rest))
    with (length rpre + S (S (length rest)))
    by (simpl; rewrite length_app; simpl; lia).
  rewrite (ixfr_streaming_panics id timeout serial t1 rpre pre rk mk) by auto.
  reflexivity.
Qed.

(** X1. inIxfr on replies that all arrive without error under the query's
    id and, after the first, carry at least one record.
    - A first message that is one SOA record is the whole transfer ("no
      changes"); the session is left as it was.
    - A longer first message that starts with a SOA record gives the
      serial. The transfer stops on the first message, this one included,
      whose last record is a SOA with that serial; every message before it
      is emitted without error, and nothing after it is read. *)
Theorem inIxfr_stream (t : Transfer) (id : Z) (rd0 : RawRead) (m0 : Msg) :
  delivers t id rd0 m0 -> isSOAFirst m0 = true ->
  let t1 := set_tsigTimersOnly true t in
  let timeout := read_deadline t in
  let opening := round timeout (tsigTimersOnly t) m0 in
  (length (Answer m0) = 1 ->
   forall rest, inIxfr t id (rd0 :: rest) = Some (t, opening ++ deferred, Returned))
  /\ (forall h serial more,
       Answer m0 = SOA h serial :: more -> more <> [] ->
       (ixfr_ends serial m0 = true ->
        forall rest, inIxfr t id (rd0 :: rest) = Some (t1, opening ++ deferred, Returned))
       /\ (ixfr_ends serial m0 = false ->
           forall rpre pre rk mk rest,
             Forall2 (delivers t1 id) rpre pre ->
             Forall (fun m => Answer m <> [] /\ ixfr_ends serial m = false) pre ->
             delivers t1 id rk mk -> ixfr_ends serial mk = true ->
             inIxfr t id (rd0 :: rpre ++ rk :: rest)
             = Some (t1, (opening ++ rounds timeout true pre ++ round timeout true mk)
                         ++ deferred, Returned))).
Proof.
  intros Hrd0 Hsoa t1 timeout opening. split.
  - destruct Hrd0 as [Hrd Hid].
    intros Hlen rest. unfold inIxfr. erewrite run_loop_stop; [reflexivity|].
    unfold ixfr_body. rewrite Hrd, Hid, Z.eqb_refl, Hsoa.
    apply Nat.eqb_eq in Hlen. rewrite Hlen. reflexivity.
  - intros h serial more HA Hmore.
    pose proof (ixfr_body_first id timeout t rd0 m0 h serial more Hrd0 Hsoa HA Hmore)
      as Hfirst.
    split.
    + intros Hend rest. unfold inIxfr. rewrite Hend in Hfirst.
      erewrite run_loop_stop by exact Hfirst. reflexivity.
    + intros Hend rpre pre rk mk rest Hpre Hnot Hk Hlast. unfold inIxfr.
      rewrite Hend in Hfirst. erewrite run_loop_continue by exact Hfirst.
      replace (length (rd0 :: rpre ++ rk :: rest))
        with (length rpre + S (S (length rest)))
        by (simpl; rewrite length_app; simpl; lia).
      rewrite (ixfr_streaming_stops id timeout serial t1 rpre pre rk mk) by auto.
      reflexivity.
Qed.

(** ** Read deadlines *)

Lemma axfr_body_pass id timeout first t rd :
  exists b sends,
    step_events (axfr_body id timeout first t rd)
    = EvSetReadDeadline timeout :: EvReadMsg b :: sends
    /\ Forall (fun e => exists x, e = EvSend x) sends.
Proof.
  exists (tsigTimersOnly t). unfold axfr_body, axfr_streaming.
  destruct (ReadMsg t rd) as [[m|] [e|]]; simpl; eauto 6.
  destruct (negb _); simpl; eauto 6.
  destruct first; simpl.
  - destruct (negb _); simpl; eauto 6.
    destruct (_ =? _)%nat; simpl; eauto 6.
    destruct (isSOALast m); simpl; eauto 6.
  - destruct (isSOALast m); simpl; eauto 6.
Qed.

Lemma ixfr_streaming_pass m timeout b serial t :
  exists sends,
    step_events (ixfr_streaming m [EvSetReadDeadline timeout; EvReadMsg b] false serial t)
    = EvSetReadDeadline timeout :: EvReadMsg b :: sends
    /\ Forall (fun e => exists x, e = EvSend x) sends.
Proof.
  unfold ixfr_streaming. simpl.
  destruct (last _) as [[h v|ts|h]|]; simpl; eauto 6.
  destruct (v =? serial)%Z; simpl; eauto 6.
Qed.

Lemma ixfr_body_pass id timeout l t rd :
  exists b sends,
    step_events (ixfr_body id timeout l t rd)
    = EvSetReadDeadline timeout :: EvReadMsg b :: sends
    /\ Forall (fun e => exists x, e = EvSend x) sends.
Proof.
  exists (tsigTimersOnly t). unfold ixfr_body. destruct l as [first serial].
  destruct (ReadMsg t rd) as [[m|] [e|]]; simpl; eauto 6.
  destruct (negb _); simpl; eauto 6.
  destruct first; simpl; [|apply ixfr_streaming_pass].
  destruct (_ && _); simpl; eauto 6.
  destruct (negb _); simpl; eauto 6.
  destruct (Answer m) as [|[h v|ts|h] more]; simpl; eauto 6.
  apply ixfr_streaming_pass.
Qed.

Lemma run_loop_passes {L : Type} (body : L -> Transfer -> RawRead -> Step L) timeout :
  (forall l t rd, exists b sends,
      step_events (body l t rd) = EvSetReadDeadline timeout :: EvReadMsg b :: sends
      /\ Forall (fun e => exists x, e = EvSend x) sends) ->
  forall fuel l t rds t' evs how,
    run_loop body fuel l t rds = Some (t', evs, how) -> Passes timeout evs.
Proof.
  intros Hbody fuel; induction fuel as [|fuel IH]; intros l t rds t' evs how; [discriminate|].
  simpl. destruct (next_read rds) as [rd rest].
  destruct (Hbody l t rd) as (b & sends & Hstep & Hsends).
  destruct (body l t rd) as [l1 t1 evs1|t1 evs1 how1]; simpl in Hstep; subst evs1.
  - destruct (run_loop body fuel l1 t1 rest) as [[[t2 evs2] how2]|] eqn:E; [|discriminate].
    simpl. intros [= <- <- <-]. constructor; eauto.
  - intros [= <- <- <-]. rewrite <- (app_nil_r sends). constructor; [exact Hsends|constructor].
Qed.

(** X2. Every read of an inbound transfer has its deadline: a run of inAxfr
    or inIxfr is a sequence of passes, each of which sets the read deadline
    from ReadTimeout (2 seconds when unset), then reads, then sends; the
    closes follow the last pass. *)
Theorem read_deadline_before_every_read (t : Transfer) (id : Z) (rds : list RawRead) :
  (exists t' evs how,
     inAxfr t id rds = Some (t', evs ++ deferred, how) /\ Passes (read_deadline t) evs)
  /\ (exists t' evs how,
     inIxfr t id rds = Some (t', evs ++ deferred, how) /\ Passes (read_deadline t) evs).
Proof.
  split.
  - destruct (inAxfr_run t id rds) as (t' & evs & how & R & E).
    exists t', evs, how. split; [exact E|].
    eapply run_loop_passes, R. apply axfr_body_pass.
  - destruct (inIxfr_run t id rds) as (t' & evs & how & R & E).
    exists t', evs, how. split; [exact E|].
    eapply run_loop_passes, R. apply ixfr_body_pass.
Qed.

End Properties.

(** * Runs on the small instance *)

Section Runs.
#[local] Existing Instance Toy.dns.
Import Toy.

(** C1, at a transfer of three messages followed by one that is never
    read: the lone opening SOA, a record, a record with the closing SOA. *)
Lemma inAxfr_stream_witness :
  inAxfr plain 7 [soa_only; data; data_soa; data]
  = Some (set_tsigTimersOnly true plain,
          (round dnsTimeout false (reply [soa 5])
           ++ rounds dnsTimeout true [reply [a_rr]]
           ++ round dnsTimeout true (reply [a_rr; soa 5]))
          ++ [EvCloseChan; EvClose], Returned).
Proof.
  destruct (inAxfr_stream plain 7 soa_only (reply [soa 5])) as [_ Hgo];
    [split; reflexivity|reflexivity|].
  destruct Hgo as [Hstop _]; [left; reflexivity|].
  apply (Hstop [data] [reply [a_rr]] data_soa (reply [a_rr; soa 5]) [data]);
    repeat constructor.
Defined.

(** C2, at the first message [SOA serial 5, d1], then a reply without
    answer records, then [d2, SOA serial 5], which is never read. *)
Lemma inIxfr_empty_answer_witness :
  inIxfr plain 7 [soa_data; no_answer; data_soa]
  = Some (set_tsigTimersOnly true plain,
          (round dnsTimeout false (reply [soa 5; a_rr])
           ++ rounds dnsTimeout true []
           ++ [EvSetReadDeadline dnsTimeout; EvReadMsg true])
          ++ [EvCloseChan; EvClose],
          Panicked "index out of range").
Proof.
  apply (inIxfr_empty_answer_panics plain 7 soa_data (reply [soa 5; a_rr])
           {| Name := "z."; Rrtype := TypeSOA |} 5%Z [a_rr]
           ltac:(split; reflexivity) eq_refl eq_refl ltac:(discriminate) eq_refl
           [] [] no_answer (reply []) [data_soa]);
    repeat constructor.
Defined.

(** inAxfr on the same replies: its test for the last record is
    isSOALast, which looks at the length first; the empty reply is passed
    on and the transfer ends on the third message. *)
Lemma inAxfr_passes_empty_answer :
  inAxfr plain 7 [soa_data; no_answer; data_soa]
  = Some (set_tsigTimersOnly true plain,
          (round dnsTimeout false (reply [soa 5; a_rr])
           ++ rounds dnsTimeout true [reply []; reply [a_rr; soa 5]])
          ++ [EvCloseChan; EvClose],
          Returned).
Proof. reflexivity. Qed.

(** X1, at an IXFR of three messages followed by one that is never read:
    the serial 5 with a first change, a message that ends on the SOA of
    serial 9, and the message that ends on the SOA of serial 5. *)
Lemma inIxfr_stream_witness :
  inIxfr plain 7 [soa_data; got [Byte.x07; Byte.x01; Byte.x07]; data_soa; data]
  = Some (set_tsigTimersOnly true plain,
          (round dnsTimeout false (reply [soa 5; a_rr])
           ++ rounds dnsTimeout true [reply [a_rr; soa 9]]
           ++ round dnsTimeout true (reply [a_rr; soa 5]))
          ++ [EvCloseChan; EvClose], Returned).
Proof.
  destruct (inIxfr_stream plain 7 soa_data (reply [soa 5; a_rr])) as [_ Hlong];
    [split; reflexivity|reflexivity|].
  destruct (Hlong {| Name := "z."; Rrtype := TypeSOA |} 5%Z [a_rr]) as [_ Hgo];
    [reflexivity|discriminate|].
  apply (Hgo eq_refl [got [Byte.x07; Byte.x01; Byte.x07]] [reply [a_rr; soa 9]]
           data_soa (reply [a_rr; soa 5]) [data]);
    repeat constructor; discriminate.
Defined.

(** C4, as stated, fails: inAxfr on a whole zone in one message closes
    the envelope stream first and the connection second. *)
Lemma connection_first_counterexample :
  inAxfr plain 7 [whole_zone]
  = Some (set_tsigTimersOnly true plain,
          round dnsTimeout false (reply [soa 5; a_rr; a_rr; soa 5])
          ++ [EvCloseChan; EvClose], Returned)
  /\ closes (round dnsTimeout false (reply [soa 5; a_rr; a_rr; soa 5])
             ++ [EvCloseChan; EvClose])
     = [EvCloseChan; EvClose]
  /\ [EvCloseChan; EvClose] <> [EvClose; EvCloseChan].
Proof. repeat split; try reflexivity. discriminate. Qed.

(** C5, as stated, fails: inIxfr on the "no changes" reply reads the first
    message, emits it and returns; the flag of the fresh session is still
    clear when the transfer is over. *)
Lemma no_change_leaves_flag_clear :
  inIxfr plain 7 [soa_only]
  = Some (plain, round dnsTimeout false (reply [soa 5]) ++ [EvCloseChan; EvClose], Returned)
  /\ tsigTimersOnly plain = false.
Proof. split; reflexivity. Qed.

(** C6, at a reply signed with the key "k." on a session that holds the
    key "j." only. *)
Lemma unknown_key_witness :
  ReadMsg other_key (got [Byte.x07; Byte.x06; Byte.xfa])
  = (Some (signed [soa 5]), Some ErrSecret)
  /\ WriteMsg other_key (signed [soa 5]) None = (other_key, [], Some ErrSecret).
Proof.
  destruct (unknown_key other_key (signed [soa 5]) key
              {[ "j."%string := "c2VjcmV0"%string ]})
    as [Hread Hwrite]; [reflexivity|reflexivity|reflexivity|].
  split; [apply Hread; [left; discriminate|reflexivity]|apply Hwrite].
Defined.

(** C7, as stated, fails: the producer sends one envelope and closes the
    source, and the writer refuses the reply. The task returns after that
    write: the writer is not switched to timers-only mode and the answer
    section is not cleared. *)
Lemma Out_failed_write_counterexample :
  Out plain [Some (ErrExt "broken pipe")] (query TypeAXFR)
    [ {| E_RR := [soa 5; a_rr; soa 5]; E_Error := None |} ]
  = (None, (out_reply [soa 5; a_rr; soa 5], [EvWriteMsg (out_reply [soa 5; a_rr; soa 5])]))
  /\ Answer (out_reply [soa 5; a_rr; soa 5]) <> []
  /\ EvTsigTimersOnly true
     ∉ [EvWriteMsg (out_reply [soa 5; a_rr; soa 5])].
Proof.
  split; [reflexivity|]. split; [discriminate|].
  intros Hin. apply list_elem_of_singleton in Hin. discriminate.
Qed.

(** C7 (amended), at a writer that accepts both replies. *)
Lemma Out_accumulates_witness :
  (Out plain [] (query TypeAXFR) zone).2.2
  = [EvWriteMsg (out_reply [soa 5]); EvWriteMsg (out_reply [soa 5; a_rr; soa 5]);
     EvTsigTimersOnly true]
  /\ Answer (Out plain [] (query TypeAXFR) zone).2.1 = [].
Proof.
  destruct (Out_accumulates plain [] (query TypeAXFR) zone) as (_ & _ & _ & Hall & _).
  destruct (Hall ltac:(constructor)) as (Hevs & _ & Hclear).
  split; [rewrite Hevs; reflexivity|exact Hclear].
Defined.

(** At a reply signed and read back under the key "k.", from a fresh
    chain state. *)
Lemma tsig_round_trip_witness :
  WriteMsg keyed (signed [soa 5]) None
  = (set_tsigRequestMAC "+" keyed, [EvWrite [Byte.x07; Byte.x06; Byte.xfa]], None)
  /\ ReadMsg keyed (got [Byte.x07; Byte.x06; Byte.xfa]) = (Some (signed [soa 5]), None)
  /\ Answer (signed [soa 5]) = Answer (signed [soa 5]).
Proof.
  apply (tsig_round_trip keyed keyed (signed [soa 5]) (signed [soa 5]) key key
           {[ "k."%string := "c2VjcmV0"%string ]} "c2VjcmV0" "+"
           [Byte.x07; Byte.x06; Byte.xfa]); reflexivity.
Defined.

(** C10, at a query of type A. *)
Lemma In_other_qtype_witness :
  exists r out,
    In plain (query 1) "192.0.2.1:53" (peer_ok [soa_only]) = Some r
    /\ in_env r = true /\ in_err r = None /\ in_bg r = BgNone /\ in_t r = plain
    /\ in_trace r = [EvDial "192.0.2.1:53" dnsTimeout; EvWrite out]
    /\ envelopes (in_trace r) = [] /\ closes (in_trace r) = []
    /\ read_flags (in_trace r) = [].
Proof.
  apply (In_other_qtype plain plain (query 1) "192.0.2.1:53" (peer_ok [soa_only])
           {| Qname := "z."; Qtype := 1 |} [] [EvWrite [Byte.x07]]);
    try reflexivity; discriminate.
Defined.

End Runs.

(** C8. No write of a transfer is given a deadline: whatever the
    session's WriteTimeout, the run of [In] (the write of the query
    included) and the task of [Out] never set a write deadline. On a
    session with WriteTimeout at 5 seconds the query goes out straight
    after the dial, and the only deadline of the run is that of the
    read. *)
Theorem write_deadline_never_set :
  (forall (D : Dns) t q a net,
     exists r, In t q a net = Some r
               /\ Forall (fun e => is_write_deadline e = false) (in_trace r))
  /\ (forall (D : Dns) t wres q ch,
       Forall (fun e => is_write_deadline e = false) (Out t wres q ch).2.2)
  /\ (let t := {| Conn := new_Conn; DialTimeout := 0; ReadTimeout := 0;
                  WriteTimeout := 5 * 10 ^ 9; TsigSecret := None;
                  tsigTimersOnly := false |} in
      @In Toy.dns t (Toy.query TypeAXFR) "192.0.2.1:53" (Toy.peer_ok [Toy.whole_zone])
      = Some {| in_env := true; in_err := None;
                in_t := set_tsigTimersOnly true t;
                in_trace :=
                  [EvDial "192.0.2.1:53" dnsTimeout; EvWrite [Byte.x07];
                   EvSetReadDeadline dnsTimeout; EvReadMsg false;
                   EvSend (ok_envelope
                             (Toy.reply [Toy.soa 5; Toy.a_rr; Toy.a_rr; Toy.soa 5]));
                   EvCloseChan; EvClose];
                in_bg := BgAxfr Returned |}).
Proof.
  split; [|split].
  - intros D t q a net. apply In_no_write_deadline.
  - intros D t wres q ch. unfold Out. simpl. apply Out_loop_no_write_deadline.
  - reflexivity.
Qed.

(** * Further properties of the transfer code *)

Section Edges.
Context `{Dns}.

(** ** Envelopes of a run *)

Lemma axfr_body_sends id timeout first t rd :
  pass_sends (axfr_body id timeout first t rd).
Proof.
  unfold pass_sends, axfr_body, axfr_streaming.
  destruct (ReadMsg t rd) as [[m|] [e|]]; simpl; eauto.
  destruct (negb _); simpl; eauto.
  destruct first; simpl.
  - destruct (negb _); simpl; eauto.
    destruct (_ =? _)%nat; simpl; eauto.
    destruct (isSOALast m); simpl; eauto.
  - destruct (isSOALast m); simpl; eauto.
Qed.

Lemma axfr_body_returns id timeout first t rd t' evs why :
  axfr_body id timeout first t rd <> Stop t' evs (Panicked why).
Proof.
  unfold axfr_body, axfr_streaming.
  pose proof (ReadMsg_not_nil_nil t rd) as Hnn.
  destruct (ReadMsg t rd) as [[m|] [e|]]; try discriminate; [|congruence].
  destruct (negb _); [discriminate|].
  destruct first; simpl.
  - destruct (negb _); [discriminate|].
    destruct (_ =? _)%nat; [discriminate|].
    destruct (isSOALast m); discriminate.
  - destruct (isSOALast m); discriminate.
Qed.

Lemma ixfr_streaming_sends m timeout b serial t :
  pass_sends (ixfr_streaming m [EvSetReadDeadline timeout; EvReadMsg b] false serial t).
Proof.
  unfold pass_sends, ixfr_streaming. simpl.
  destruct (last (Answer m)) as [[h v|ts|h]|]; simpl; eauto.
  destruct (v =? serial)%Z; simpl; eauto.
Qed.

Lemma ixfr_body_sends id timeout l t rd :
  pass_sends (ixfr_body id timeout l t rd).
Proof.
  unfold ixfr_body. destruct l as [first serial].
  destruct (ReadMsg t rd) as [[m|] [e|]]; try (unfold pass_sends; simpl; eauto; fail).
  destruct (negb _); [unfold pass_sends; simpl; eauto|].
  destruct first; [|apply ixfr_streaming_sends].
  destruct (_ && _); [unfold pass_sends; simpl; eauto|].
  destruct (negb _); [unfold pass_sends; simpl; eauto|].
  destruct (Answer m) as [|[h v|ts|h] more]; try (unfold pass_sends; simpl; eauto; fail).
  apply ixfr_streaming_sends.
Qed.

(** The envelopes of a loop: one without error for every pass that goes
    on, then the envelope of the last pass, if that pass returns. *)
Lemma run_loop_sends {L : Type} (body : L -> Transfer -> RawRead -> Step L) :
  (forall l t rd, pass_sends (body l t rd)) ->
  forall fuel l t rds t' evs how,
    run_loop body fuel l t rds = Some (t', evs, how) ->
    exists init tail,
      envelopes evs = init ++ tail
      /\ Forall (fun x => E_Error x = None) init
      /\ length (read_flags evs) = S (length init)
      /\ match how with
         | Returned => exists x, tail = [x]
         | Panicked _ => tail = []
         end.
Proof.
  intros Hbody fuel; induction fuel as [|fuel IH]; intros l t rds t' evs how; [discriminate|].
  simpl. destruct (next_read rds) as [rd rest].
  pose proof (Hbody l t rd) as [Hreads Hsends].
  destruct (body l t rd) as [l1 t1 evs1|t1 evs1 how1]; simpl in Hreads.
  - destruct (run_loop body fuel l1 t1 rest) as [[[t2 evs2] how2]|] eqn:E; [|discriminate].
    simpl. intros [= <- <- <-].
    destruct (IH _ _ _ _ _ _ E) as (init & tail & Henv & Hok & Hlen & Htail).
    destruct Hsends as (x & Hx & Hnone).
    exists (x :: init), tail. unfold envelopes, read_flags in *.
    rewrite !omap_app, Hx, Henv, !length_app, Hreads, Hlen.
    repeat split; auto.
  - intros [= <- <- <-]. destruct how1 as [|why].
    + destruct Hsends as (x & Hx). exists [], [x]. rewrite Hx, Hreads. eauto.
    + exists [], []. rewrite Hsends, Hreads. auto.
Qed.

Lemma run_loop_returns {L : Type} (body : L -> Transfer -> RawRead -> Step L) :
  (forall l t rd t' evs why, body l t rd <> Stop t' evs (Panicked why)) ->
  forall fuel l t rds t' evs how,
    run_loop body fuel l t rds = Some (t', evs, how) -> how = Returned.
Proof.
  intros Hbody fuel; induction fuel as [|fuel IH]; intros l t rds t' evs how; [discriminate|].
  simpl. destruct (next_read rds) as [rd rest].
  pose proof (Hbody l t rd) as Hnp.
  destruct (body l t rd) as [l1 t1 evs1|t1 evs1 how1].
  - destruct (run_loop body fuel l1 t1 rest) as [[[t2 evs2] how2]|] eqn:E; [|discriminate].
    simpl. intros [= <- <- <-]. eapply IH, E.
  - intros [= <- <- <-]. destruct how1 as [|why]; [reflexivity|].
    exfalso. eapply Hnp. reflexivity.
Qed.

Lemma envelopes_deferred evs : envelopes (evs ++ deferred) = envelopes evs.
Proof. unfold envelopes. rewrite omap_app. simpl. apply app_nil_r. Qed.

(** X3. inAxfr never panics, and answers every read with exactly one
    envelope: a run sends as many envelopes as it reads replies, every
    envelope but the last is without error, and the task returns. *)
Theorem inAxfr_envelopes (t : Transfer) (id : Z) (rds : list RawRead) :
  exists t' evs init x,
    inAxfr t id rds = Some (t', evs, Returned)
    /\ envelopes evs = init ++ [x]
    /\ Forall (fun e => E_Error e = None) init
    /\ length (read_flags evs) = length (envelopes evs).
Proof.
  destruct (inAxfr_run t id rds) as (t' & evs & how & R & E).
  pose proof (run_loop_returns _ (axfr_body_returns id (read_deadline t)) _ _ _ _ _ _ _ R)
    as ->.
  destruct (run_loop_sends _ (axfr_body_sends id (read_deadline t)) _ _ _ _ _ _ _ R)
    as (init & tail & Henv & Hok & Hlen & x & ->).
  exists t', (evs ++ deferred), init, x.
  rewrite envelopes_deferred, read_flags_deferred, Henv, Hlen, length_app. simpl.
  repeat split; auto. lia.
Qed.

(** X4. inIxfr sends one envelope without error for every reply it goes
    on from; the last pass sends one more envelope when the task returns
    and none when it panics, so a consumer gets one envelope fewer than
    there were reads exactly when the task panicked. Only the last
    envelope can carry an error. *)
Theorem inIxfr_envelopes (t : Transfer) (id : Z) (rds : list RawRead) :
  exists t' evs how init tail,
    inIxfr t id rds = Some (t', evs, how)
    /\ envelopes evs = init ++ tail
    /\ Forall (fun e => E_Error e = None) init
    /\ length (read_flags evs) = S (length init)
    /\ match how with
       | Returned => exists x, tail = [x]
       | Panicked _ => tail = []
       end.
Proof.
  destruct (inIxfr_run t id rds) as (t' & evs & how & R & E).
  destruct (run_loop_sends _ (ixfr_body_sends id (read_deadline t)) _ _ _ _ _ _ _ R)
    as (init & tail & Henv & Hok & Hlen & Htail).
  exists t', (evs ++ deferred), how, init, tail.
  rewrite envelopes_deferred, read_flags_deferred. auto.
Qed.

(** ** Replies that are turned down *)

(** A pass of inAxfr whose read comes back with an error. *)
Lemma axfr_body_read_error id timeout first t rd om err :
  ReadMsg t rd = (om, Some err) ->
  axfr_body id timeout first t rd
  = Stop t (failed_round timeout (tsigTimersOnly t) err) Returned.
Proof. intros Hrd. unfold axfr_body. rewrite Hrd. destruct om; reflexivity. Qed.

Lemma axfr_body_wrong_id id timeout first t rd m :
  ReadMsg t rd = (Some m, None) -> Id m <> id ->
  axfr_body id timeout first t rd
  = Stop t [EvSetReadDeadline timeout; EvReadMsg (tsigTimersOnly t);
            EvSend {| E_RR := Answer m; E_Error := Some ErrId |}] Returned.
Proof.
  intros Hrd Hid. unfold axfr_body. rewrite Hrd.
  replace (id =? Id m)%Z with false by (symmetry; apply Z.eqb_neq; congruence).
  reflexivity.
Qed.

Lemma ixfr_body_wrong_id id timeout l t rd m :
  ReadMsg t rd = (Some m, None) -> Id m <> id ->
  ixfr_body id timeout l t rd
  = Stop t [EvSetReadDeadline timeout; EvReadMsg (tsigTimersOnly t);
            EvSend {| E_RR := Answer m; E_Error := Some ErrId |}] Returned.
Proof.
  intros Hrd Hid. unfold ixfr_body. destruct l as [first serial]. rewrite Hrd.
  replace (id =? Id m)%Z with false by (symmetry; apply Z.eqb_neq; congruence).
  reflexivity.
Qed.

(** X5. A first reply that is read without error and turned down, by
    either state machine: under another id than the query's it is sent on
    with ErrId, whatever its records; under the query's id and without a
    SOA as first record (an empty answer section included) it is sent on
    with ErrSoa. The envelope carries the reply's records, the session is
    left as it was, the closes follow and nothing further is read. *)
Theorem first_reply_rejected (t : Transfer) (id : Z) (rd0 : RawRead) (m0 : Msg)
    (rest : list RawRead) :
  ReadMsg t rd0 = (Some m0, None) ->
  Id m0 <> id \/ isSOAFirst m0 = false ->
  let why := if (id =? Id m0)%Z then ErrSoa else ErrId in
  let evs := [EvSetReadDeadline (read_deadline t); EvReadMsg (tsigTimersOnly t);
              EvSend {| E_RR := Answer m0; E_Error := Some why |}] ++ deferred in
  inAxfr t id (rd0 :: rest) = Some (t, evs, Returned)
  /\ inIxfr t id (rd0 :: rest) = Some (t, evs, Returned).
Proof.
  intros Hrd Hbad why evs. subst why evs.
  destruct (Z.eqb_spec id (Id m0)) as [Heq|Hne].
  - destruct Hbad as [Hid|Hsoa]; [congruence|].
    split.
    + unfold inAxfr. erewrite run_loop_stop; [reflexivity|].
      unfold axfr_body. rewrite Hrd, Heq, Z.eqb_refl, Hsoa. reflexivity.
    + unfold inIxfr. erewrite run_loop_stop; [reflexivity|].
      unfold ixfr_body. rewrite Hrd, Heq, Z.eqb_refl, Hsoa, andb_false_r. reflexivity.
  - split.
    + unfold inAxfr. erewrite run_loop_stop; [reflexivity|].
      apply axfr_body_wrong_id; auto.
    + unfold inIxfr. erewrite run_loop_stop; [reflexivity|].
      apply ixfr_body_wrong_id; auto.
Qed.

(** X8. A first read that hands back a message together with an error
    (a TSIG record under an unknown key, a signature that does not verify,
    a transport error after some bytes): inAxfr sends the error without
    records, inIxfr sends the error with the records of the message. *)
Theorem first_reply_with_error (t : Transfer) (id : Z) (rd0 : RawRead) (m0 : Msg)
    (err : error) (rest : list RawRead) :
  ReadMsg t rd0 = (Some m0, Some err) ->
  inAxfr t id (rd0 :: rest)
  = Some (t, failed_round (read_deadline t) (tsigTimersOnly t) err ++ deferred, Returned)
  /\ inIxfr t id (rd0 :: rest)
     = Some (t, [EvSetReadDeadline (read_deadline t); EvReadMsg (tsigTimersOnly t);
                 EvSend {| E_RR := Answer m0; E_Error := Some err |}] ++ deferred,
             Returned).
Proof.
  intros Hrd. split.
  - unfold inAxfr. erewrite run_loop_stop; [reflexivity|].
    eapply axfr_body_read_error, Hrd.
  - unfold inIxfr. erewrite run_loop_stop; [reflexivity|].
    unfold ixfr_body. rewrite Hrd. reflexivity.
Qed.

(** The streaming state of inAxfr passes on every reply without a
    trailing SOA. *)
Lemma axfr_streaming_go id timeout t rpre pre :
  tsigTimersOnly t = true ->
  Forall2 (delivers t id) rpre pre ->
  Forall (fun m => isSOALast m = false) pre ->
  forall fuel rest,
    run_loop (axfr_body id timeout) (length rpre + fuel) false t (rpre ++ rest)
    = after (rounds timeout true pre) (run_loop (axfr_body id timeout) fuel false t rest).
Proof.
  intros Hflag Hpre; induction Hpre as [|rd m rpre pre Hrd Hpre IH];
    intros Hnot fuel rest.
  - simpl. rewrite after_nil. reflexivity.
  - inversion Hnot as [|? ? Hm Hnot']; subst.
    simpl length. simpl app. rewrite Nat.add_succ_l. erewrite run_loop_continue.
    2:{ rewrite (axfr_body_streaming _ _ _ _ _ Hflag Hrd), Hm. reflexivity. }
    rewrite IH by assumption. rewrite after_app. reflexivity.
Qed.

(** The first pass of inAxfr when the transfer goes on. *)
Lemma axfr_body_opens id timeout t rd m :
  delivers t id rd m -> isSOAFirst m = true ->
  length (Answer m) = 1 \/ isSOALast m = false ->
  axfr_body id timeout true t rd
  = Continue false (set_tsigTimersOnly true t) (round timeout (tsigTimersOnly t) m).
Proof.
  intros Hrd Hsoa Hgo. rewrite (axfr_body_first _ _ _ _ _ Hrd Hsoa).
  destruct Hgo as [Hlen|Hlast].
  - apply Nat.eqb_eq in Hlen. rewrite Hlen. reflexivity.
  - rewrite Hlast. destruct (length (Answer m) =? 1)%nat; reflexivity.
Qed.

(** X6. inAxfr in mid-transfer: after an opening message and any number of
    replies without trailing SOA, a read that fails (with or without a
    message) ends the transfer with an envelope that carries the error and
    no records, and a reply under another id ends it with an envelope that
    carries ErrId and the reply's records. Every earlier message has been
    sent on without error, the flag stays set, and nothing further is
    read. *)
Theorem inAxfr_later_errors (t : Transfer) (id : Z) (rd0 : RawRead) (m0 : Msg)
    (rpre : list RawRead) (pre : list Msg) :
  delivers t id rd0 m0 -> isSOAFirst m0 = true ->
  length (Answer m0) = 1 \/ isSOALast m0 = false ->
  let t1 := set_tsigTimersOnly true t in
  let timeout := read_deadline t in
  let so_far := round timeout (tsigTimersOnly t) m0 ++ rounds timeout true pre in
  Forall2 (delivers t1 id) rpre pre ->
  Forall (fun m => isSOALast m = false) pre ->
  (forall rk om err rest,
     ReadMsg t1 rk = (om, Some err) ->
     inAxfr t id (rd0 :: rpre ++ rk :: rest)
     = Some (t1, (so_far ++ failed_round timeout true err) ++ deferred, Returned))
  /\ (forall rk mk rest,
     ReadMsg t1 rk = (Some mk, None) -> Id mk <> id ->
     inAxfr t id (rd0 :: rpre ++ rk :: rest)
     = Some (t1, (so_far ++ [EvSetReadDeadline timeout; EvReadMsg true;
                             EvSend {| E_RR := Answer mk; E_Error := Some ErrId |}])
                 ++ deferred, Returned)).
Proof.
  intros Hrd0 Hsoa Hgo t1 timeout so_far Hpre Hnot. subst so_far.
  pose proof (axfr_body_opens id timeout t rd0 m0 Hrd0 Hsoa Hgo) as Hopen.
  assert (forall rk rest, length (rd0 :: rpre ++ rk :: rest)
                          = length rpre + S (S (length rest))) as Hlen
    by (intros; simpl; rewrite length_app; simpl; lia).
  split.
  - intros rk om err rest Hrk. unfold inAxfr.
    erewrite run_loop_continue by exact Hopen.
    rewrite Hlen, (axfr_streaming_go id timeout t1 rpre pre) by auto.
    erewrite run_loop_stop by (eapply axfr_body_read_error, Hrk).
    simpl. rewrite <- !app_assoc. reflexivity.
  - intros rk mk rest Hrk Hid. unfold inAxfr.
    erewrite run_loop_continue by exact Hopen.
    rewrite Hlen, (axfr_streaming_go id timeout t1 rpre pre) by auto.
    erewrite run_loop_stop by (apply axfr_body_wrong_id; eauto).
    simpl. rewrite <- !app_assoc. reflexivity.
Qed.

(** X7. inIxfr in mid-transfer: after a first message that gave the
    serial and any number of replies that carry records and do not end the
    transfer, a reply that comes with an error is sent on with the error
    and its records, a reply under another id is sent on with ErrId and
    its records, and a read that fails without a message makes the task
    panic on [in.Answer], with no envelope for the failure. *)
Theorem inIxfr_later_errors (t : Transfer) (id : Z) (rd0 : RawRead) (m0 : Msg)
    (h : RR_Header) (serial : Z) (more : list RR)
    (rpre : list RawRead) (pre : list Msg) :
  delivers t id rd0 m0 -> isSOAFirst m0 = true ->
  Answer m0 = SOA h serial :: more -> more <> [] -> ixfr_ends serial m0 = false ->
  let t1 := set_tsigTimersOnly true t in
  let timeout := read_deadline t in
  let so_far := round timeout (tsigTimersOnly t) m0 ++ rounds timeout true pre in
  Forall2 (delivers t1 id) rpre pre ->
  Forall (fun m => Answer m <> [] /\ ixfr_ends serial m = false) pre ->
  (forall rk mk err rest,
     ReadMsg t1 rk = (Some mk, Some err) ->
     inIxfr t id (rd0 :: rpre ++ rk :: rest)
     = Some (t1, (so_far ++ [EvSetReadDeadline timeout; EvReadMsg true;
                             EvSend {| E_RR := Answer mk; E_Error := Some err |}])
                 ++ deferred, Returned))
  /\ (forall rk mk rest,
     ReadMsg t1 rk = (Some mk, None) -> Id mk <> id ->
     inIxfr t id (rd0 :: rpre ++ rk :: rest)
     = Some (t1, (so_far ++ [EvSetReadDeadline timeout; EvReadMsg true;
                             EvSend {| E_RR := Answer mk; E_Error := Some ErrId |}])
                 ++ deferred, Returned))
  /\ (forall rk err rest,
     ReadMsg t1 rk = (None, Some err) ->
     inIxfr t id (rd0 :: rpre ++ rk :: rest)
     = Some (t1, (so_far ++ [EvSetReadDeadline timeout; EvReadMsg true])
                 ++ deferred, Panicked "nil pointer dereference")).
Proof.
  intros Hrd0 Hsoa HA Hmore Hgo t1 timeout so_far Hpre Hnot. subst so_far.
  pose proof (ixfr_body_first id timeout t rd0 m0 h serial more Hrd0 Hsoa HA Hmore)
    as Hopen.
  rewrite Hgo in Hopen.
  assert (forall rk rest, length (rd0 :: rpre ++ rk :: rest)
                          = length rpre + S (S (length rest))) as Hlen
    by (intros; simpl; rewrite length_app; simpl; lia).
  split; [|split].
  - intros rk mk err rest Hrk. unfold inIxfr.
    erewrite run_loop_continue by exact Hopen.
    rewrite Hlen, (ixfr_streaming_go id timeout serial t1 rpre pre) by auto.
    erewrite run_loop_stop by (unfold ixfr_body; rewrite Hrk; reflexivity).
    simpl. rewrite <- !app_assoc. reflexivity.
  - intros rk mk rest Hrk Hid. unfold inIxfr.
    erewrite run_loop_continue by exact Hopen.
    rewrite Hlen, (ixfr_streaming_go id timeout serial t1 rpre pre) by auto.
    erewrite run_loop_stop by (apply ixfr_body_wrong_id; eauto).
    simpl. rewrite <- !app_assoc. reflexivity.
  - intros rk err rest Hrk. unfold inIxfr.
    erewrite run_loop_continue by exact Hopen.
    rewrite Hlen, (ixfr_streaming_go id timeout serial t1 rpre pre) by auto.
    erewrite run_loop_stop by (unfold ixfr_body; rewrite Hrk; reflexivity).
    simpl. rewrite <- !app_assoc. reflexivity.
Qed.

(** ** What is read *)

(** A run that made [n] reads, all of them from what arrived, is the same
    run on any input that starts with these [n] reads. *)
Lemma run_loop_prefix {L : Type} (body : L -> Transfer -> RawRead -> Step L) :
  (forall l t rd, length (read_flags (step_events (body l t rd))) = 1) ->
  forall fuel l t rds t' evs how,
    run_loop body fuel l t rds = Some (t', evs, how) ->
    length (read_flags evs) <= length rds ->
    forall fuel' others,
      length (read_flags evs) <= fuel' ->
      run_loop body fuel' l t (take (length (read_flags evs)) rds ++ others)
      = Some (t', evs, how).
Proof.
  intros Hbody fuel; induction fuel as [|fuel IH]; intros l t rds t' evs how; [discriminate|].
  simpl. pose proof (Hbody l t) as Hone.
  destruct rds as [|rd rest]; simpl.
  - specialize (Hone read_timeout).
    destruct (body l t read_timeout) as [l1 t1 evs1|t1 evs1 how1]; simpl in Hone.
    + destruct (run_loop body fuel l1 t1 []) as [[[t2 evs2] how2]|]; [|discriminate].
      simpl. intros [= <- <- <-]. unfold read_flags. rewrite omap_app, length_app.
      fold (read_flags evs1). lia.
    + intros [= <- <- <-]. lia.
  - specialize (Hone rd).
    destruct (body l t rd) as [l1 t1 evs1|t1 evs1 how1] eqn:B; simpl in Hone.
    + destruct (run_loop body fuel l1 t1 rest) as [[[t2 evs2] how2]|] eqn:E; [|discriminate].
      simpl. intros [= <- <- <-].
      assert (length (read_flags (evs1 ++ evs2)) = S (length (read_flags evs2))) as ->.
      { unfold read_flags. rewrite omap_app, length_app. fold (read_flags evs1). lia. }
      intros Hlen [|fuel'] others Hfuel; [lia|].
      simpl. rewrite B. rewrite (IH _ _ _ _ _ _ E) by lia. reflexivity.
    + intros [= <- <- <-]. rewrite Hone.
      intros _ [|fuel'] others Hfuel; [lia|]. simpl. rewrite B. reflexivity.
Qed.

Lemma axfr_body_reads_once id timeout first t rd :
  length (read_flags (step_events (axfr_body id timeout first t rd))) = 1.
Proof. destruct (axfr_body_flag id timeout first t rd) as [-> _]. reflexivity. Qed.

Lemma ixfr_body_reads_once id timeout l t rd :
  length (read_flags (step_events (ixfr_body id timeout l t rd))) = 1.
Proof. destruct (ixfr_body_flag id timeout l t rd) as [-> _]. reflexivity. Qed.

(** X9. Neither state machine reads past the reply it ends on: when a
    run made [n] reads and all of them found a reply that had arrived,
    the run is the same, event for event, whatever follows the first [n]
    replies (nothing, or any further traffic). *)
Theorem nothing_read_after_the_end (t : Transfer) (id : Z) (rds others : list RawRead)
    (t' : Transfer) (evs : list Event) (how : Exit) :
  let n := length (read_flags evs) in
  n <= length rds ->
  (inAxfr t id rds = Some (t', evs, how) ->
   inAxfr t id (take n rds ++ others) = Some (t', evs, how))
  /\ (inIxfr t id rds = Some (t', evs, how) ->
      inIxfr t id (take n rds ++ others) = Some (t', evs, how)).
Proof.
  intros n Hn. subst n. split.
  - unfold inAxfr, with_deferred. intros E.
    destruct (run_loop _ (S (length rds)) _ _ _) as [[[t1 evs1] how1]|] eqn:R;
      [|discriminate].
    injection E as <- <- <-. rewrite read_flags_deferred in *.
    rewrite (run_loop_prefix _ (axfr_body_reads_once id (read_deadline t)) _ _ _ _ _ _ _ R)
      by (try assumption; rewrite length_app, length_take; lia).
    reflexivity.
  - unfold inIxfr, with_deferred. intros E.
    destruct (run_loop _ (S (length rds)) _ _ _) as [[[t1 evs1] how1]|] eqn:R;
      [|discriminate].
    injection E as <- <- <-. rewrite read_flags_deferred in *.
    rewrite (run_loop_prefix _ (ixfr_body_reads_once id (read_deadline t)) _ _ _ _ _ _ _ R)
      by (try assumption; rewrite length_app, length_take; lia).
    reflexivity.
Qed.

(** ** The channel, case by case *)

(** X10. What [ReadMsg] verifies. A decoded message without TSIG record
    is handed back unverified, also on a session with secrets; so is any
    message on a session without secret table; the error handed back is
    then the transport's, if any. A message with a TSIG record whose
    secret is in the table is handed back with the verdict of TsigVerify
    on the raw bytes, the secret, the running MAC and the flag, and the
    verdict replaces an error of the transport. *)
Theorem ReadMsg_verifies_signed_only (t : Transfer) (rd : RawRead) (m : Msg) :
  Unpack (rd_p rd) = inl m -> rd_p rd <> [] \/ rd_err rd = None ->
  (IsTsig m = None \/ TsigSecret t = None -> ReadMsg t rd = (Some m, rd_err rd))
  /\ (forall ts secrets secret,
       IsTsig m = Some ts -> TsigSecret t = Some secrets ->
       secrets !! Name (Hdr ts) = Some secret ->
       ReadMsg t rd
       = (Some m, TsigVerify (rd_p rd) secret (tsigRequestMAC (Conn t)) (tsigTimersOnly t))).
Proof.
  intros Hm Hread. split.
  - intros Hplain. unfold ReadMsg. rewrite Hm.
    destruct (rd_err rd) as [e|] eqn:Ee, (rd_p rd) as [|b p] eqn:Ep;
      try (destruct Hread; congruence);
      destruct Hplain as [-> | ->]; try reflexivity;
      destruct (IsTsig m); reflexivity.
  - intros ts secrets secret Hts Htbl Hkey. unfold ReadMsg.
    rewrite Hm, Hts, Htbl, Hkey.
    destruct (rd_err rd) as [e|] eqn:Ee, (rd_p rd) as [|b p] eqn:Ep;
      try (destruct Hread; congruence); reflexivity.
Qed.

(** X11. What [WriteMsg] does to the session: nothing but the running
    MAC ever changes. A message without TSIG record, or any message on a
    session without secret table, leaves the MAC alone, is packed without
    signature and, when packing fails, is not written. A message signed
    under a known key replaces the MAC by the one TsigGenerate returns,
    also when signing fails (and then nothing is written) and when the
    write that follows fails. *)
Theorem WriteMsg_session_effect (t : Transfer) (m : Msg) (wr : option error) :
  (WriteMsg t m wr).1.1
  = set_tsigRequestMAC (tsigRequestMAC (Conn (WriteMsg t m wr).1.1)) t
  /\ (IsTsig m = None \/ TsigSecret t = None ->
      WriteMsg t m wr
      = match Pack m with
        | (out, None) => (t, [EvWrite out], wr)
        | (_, Some e) => (t, [], Some e)
        end)
  /\ (forall ts secrets secret,
       IsTsig m = Some ts -> TsigSecret t = Some secrets ->
       secrets !! Name (Hdr ts) = Some secret ->
       WriteMsg t m wr
       = match TsigGenerate m secret (tsigRequestMAC (Conn t)) (tsigTimersOnly t) with
         | (out, mac, None) => (set_tsigRequestMAC mac t, [EvWrite out], wr)
         | (_, mac, Some e) => (set_tsigRequestMAC mac t, [], Some e)
         end).
Proof.
  split; [|split].
  - unfold WriteMsg, conn_Write.
    assert (t = set_tsigRequestMAC (tsigRequestMAC (Conn t)) t) as Ht
      by (destruct t as [[mac] ? ? ? ? ?]; reflexivity).
    destruct (IsTsig m) as [ts|], (TsigSecret t) as [tbl|];
      try solve [destruct (Pack m) as [out [e|]]; exact Ht].
    destruct (tbl !! _) as [secret|]; [|exact Ht].
    destruct (TsigGenerate _ _ _ _) as [[out mac] [e|]]; reflexivity.
  - intros Hplain. unfold WriteMsg, conn_Write.
    destruct Hplain as [-> | ->]; [|destruct (IsTsig m)];
      destruct (Pack m) as [out [e|]]; reflexivity.
  - intros ts secrets secret Hts Htbl Hkey. unfold WriteMsg, conn_Write.
    rewrite Hts, Htbl, Hkey.
    destruct (TsigGenerate _ _ _ _) as [[out mac] [e|]]; reflexivity.
Qed.

(** ** The entry call, path by path *)

(** X12. [In] reports a failed dial and a failed write of the query to
    its caller: no channel is returned and no task is started. After a
    failed dial nothing is written. After a failed write of the query
    (unknown key, failed signing or packing, failed network write) the
    connection that was dialled is not closed. *)
Theorem In_fails_synchronously (t : Transfer) (q : Msg) (a : string) (net : Net) :
  (forall e, dial_err net = Some e ->
     In t q a net
     = Some {| in_env := false; in_err := Some e; in_t := set_Conn new_Conn t;
               in_trace := [EvDial a (dial_timeout t)]; in_bg := BgNone |})
  /\ (forall t1 evw e,
       dial_err net = None ->
       WriteMsg (set_Conn new_Conn t) q (write_err net) = (t1, evw, Some e) ->
       In t q a net
       = Some {| in_env := false; in_err := Some e; in_t := t1;
                 in_trace := EvDial a (dial_timeout t) :: evw; in_bg := BgNone |}
       /\ closes (EvDial a (dial_timeout t) :: evw) = []).
Proof.
  split.
  - intros e Hdial. unfold In. rewrite Hdial. reflexivity.
  - intros t1 evw e Hdial Hwrite. unfold In. rewrite Hdial, Hwrite.
    split; [reflexivity|].
    pose proof (WriteMsg_events (set_Conn new_Conn t) q (write_err net)) as Hev.
    rewrite Hwrite in Hev. destruct Hev as [->|[out ->]]; reflexivity.
Qed.

(** X13. A query without question section: [In] dials, writes the query,
    and returns a channel and no error; the task it starts panics on
    [q.Question[0]]. Nothing is read, no envelope is sent, and neither the
    channel nor the connection is closed. *)
Theorem In_without_question (t t1 : Transfer) (q : Msg) (a : string) (net : Net)
    (evw : list Event) :
  dial_err net = None ->
  WriteMsg (set_Conn new_Conn t) q (write_err net) = (t1, evw, None) ->
  Question q = [] ->
  exists out,
    In t q a net
    = Some {| in_env := true; in_err := None; in_t := t1;
              in_trace := [EvDial a (dial_timeout t); EvWrite out];
              in_bg := BgPanic "index out of range" |}.
Proof.
  intros Hdial Hwrite Hq.
  pose proof (WriteMsg_events (set_Conn new_Conn t) q (write_err net)) as Hev.
  rewrite Hwrite in Hev. destruct Hev as [out ->].
  exists out. unfold In. rewrite Hdial, Hwrite, Hq. reflexivity.
Qed.

(** X14. How [In] hands over to the state machines: once the dial and the
    write of the query have succeeded, a query whose first question is of
    type AXFR is followed by the run of inAxfr, and one of type IXFR by the
    run of inIxfr, on the session as the write left it, under the id of
    the query and on the replies that arrive; [In] itself returns a
    channel and no error. Later questions are not looked at. *)
Theorem In_runs_state_machine (t t1 : Transfer) (q : Msg) (a : string) (net : Net)
    (q0 : DnsQuestion) (qs : list DnsQuestion) (evw : list Event) :
  dial_err net = None ->
  WriteMsg (set_Conn new_Conn t) q (write_err net) = (t1, evw, None) ->
  Question q = q0 :: qs ->
  (Qtype q0 = TypeAXFR ->
   exists t' evs how,
     inAxfr t1 (Id q) (incoming net) = Some (t', evs, how)
     /\ In t q a net
        = Some {| in_env := true; in_err := None; in_t := t';
                  in_trace := [EvDial a (dial_timeout t)] ++ evw ++ evs;
                  in_bg := BgAxfr how |})
  /\ (Qtype q0 = TypeIXFR ->
      exists t' evs how,
        inIxfr t1 (Id q) (incoming net) = Some (t', evs, how)
        /\ In t q a net
           = Some {| in_env := true; in_err := None; in_t := t';
                     in_trace := [EvDial a (dial_timeout t)] ++ evw ++ evs;
                     in_bg := BgIxfr how |}).
Proof.
  intros Hdial Hwrite Hq. split; intros Hty.
  - destruct (inAxfr_run t1 (Id q) (incoming net)) as (t' & evs & how & _ & E).
    exists t', (evs ++ deferred), how. split; [exact E|].
    unfold In. rewrite Hdial, Hwrite, Hq, Hty, E. reflexivity.
  - destruct (inIxfr_run t1 (Id q) (incoming net)) as (t' & evs & how & _ & E).
    exists t', (evs ++ deferred), how. split; [exact E|].
    unfold In. rewrite Hdial, Hwrite, Hq, Hty, E. reflexivity.
Qed.

Lemma read_flags_all_set (flag : bool) (n : nat) :
  flag = true -> Forall (fun b => b = true) (flag :: replicate n true).
Proof.
  intros ->. constructor; [reflexivity|].
  induction n; simpl; constructor; auto.
Qed.

Lemma WriteMsg_no_read t m wr : read_flags (WriteMsg t m wr).1.2 = [].
Proof.
  pose proof (WriteMsg_events t m wr) as Hev.
  destruct (WriteMsg t m wr) as [[t' evs] [e|]]; simpl.
  - destruct Hev as [->|[out ->]]; reflexivity.
  - destruct Hev as [out ->]; reflexivity.
Qed.

(** X15. A session that is used again: [In] starts every transfer on a
    new connection state, so the running MAC of an earlier transfer is
    forgotten, but it leaves the timers-only flag as it finds it. On a
    session whose flag an earlier transfer has set, every reply of the new
    transfer, the first included, is read and verified in timers-only
    mode, and the flag is still set afterwards. *)
Theorem In_keeps_flag_drops_mac (t : Transfer) (q : Msg) (a : string) (net : Net) :
  (forall c, In (set_Conn c t) q a net = In t q a net)
  /\ (forall r, In t q a net = Some r -> tsigTimersOnly t = true ->
       Forall (fun b => b = true) (read_flags (in_trace r))
       /\ tsigTimersOnly (in_t r) = true).
Proof.
  split; [reflexivity|].
  intros r. unfold In.
  destruct (dial_err net) as [e|].
  { intros [= <-] Hflag. simpl. split; [constructor|exact Hflag]. }
  pose proof (WriteMsg_flag (set_Conn new_Conn t) q (write_err net)) as Hkeep.
  pose proof (WriteMsg_no_read (set_Conn new_Conn t) q (write_err net)) as Hnr.
  destruct (WriteMsg _ q _) as [[t1 evw] [e|]]; simpl in Hkeep, Hnr.
  { intros [= <-] Hflag. simpl. unfold read_flags in *. simpl. rewrite Hnr.
    split; [constructor|congruence]. }
  destruct (Question q) as [|q0 qs].
  { intros [= <-] Hflag. simpl. unfold read_flags in *. simpl. rewrite Hnr.
    split; [constructor|congruence]. }
  destruct (Qtype q0 =? TypeAXFR)%Z.
  { destruct (inAxfr_run t1 (Id q) (incoming net)) as (t' & evs & how & R & E).
    rewrite E. intros [= <-] Hflag. simpl.
    destruct (run_loop_flags _ (axfr_body_flag (Id q) (read_deadline t1)) _ _ _ _ _ _ _ R)
      as (n & Hn & Ht).
    unfold read_flags in *. simpl. rewrite !omap_app, Hnr, Hn. simpl.
    rewrite app_nil_r. split.
    - apply read_flags_all_set. congruence.
    - destruct Ht as [[_ ->]| ->]; [congruence|reflexivity]. }
  destruct (Qtype q0 =? TypeIXFR)%Z.
  { destruct (inIxfr_run t1 (Id q) (incoming net)) as (t' & evs & how & R & E).
    rewrite E. intros [= <-] Hflag. simpl.
    destruct (run_loop_flags _ (ixfr_body_flag (Id q) (read_deadline t1)) _ _ _ _ _ _ _ R)
      as (n & Hn & Ht).
    unfold read_flags in *. simpl. rewrite !omap_app, Hnr, Hn. simpl.
    rewrite app_nil_r. split.
    - apply read_flags_all_set. congruence.
    - destruct Ht as [[_ ->]| ->]; [congruence|reflexivity]. }
  intros [= <-] Hflag. simpl. unfold read_flags in *. simpl. rewrite Hnr.
  split; [constructor|congruence].
Qed.

(** ** The outbound engine, further *)

Lemma Out_loop_records_only ch : forall r wres,
  Out_loop r (map records_only ch) wres = Out_loop r ch wres.
Proof.
  induction ch as [|x ch IH]; intros r wres; simpl; [reflexivity|].
  rewrite IH. reflexivity.
Qed.

(** X16. [Out] never looks at the error field of an envelope: a producer
    that sends an envelope with an error gets its records written like
    those of any other envelope, and the error goes nowhere. *)
Theorem Out_ignores_envelope_errors (t : Transfer) (wres : list (option error))
    (q : Msg) (ch : list Envelope) :
  Out t wres q (map records_only ch) = Out t wres q ch.
Proof. unfold Out. rewrite Out_loop_records_only. reflexivity. Qed.

Lemma Out_loop_header ch : forall r wres,
  Forall (fun x => set_Answer [] x = set_Answer [] r) (written (Out_loop r ch wres).2)
  /\ set_Answer [] (Out_loop r ch wres).1 = set_Answer [] r.
Proof.
  induction ch as [|e ch IH]; intros r wres; simpl; [split; [constructor|reflexivity]|].
  destruct (hd None wres) as [err|]; simpl.
  - split; [repeat constructor|reflexivity].
  - specialize (IH (set_Answer (Answer r ++ E_RR e) r) (tl wres)).
    destruct (Out_loop _ ch (tl wres)) as [r' evs]. simpl in *.
    destruct IH as [Hall Hlast]. split; [|exact Hlast].
    constructor; [reflexivity|exact Hall].
Qed.

(** X17. Every reply [Out] writes is the reply built from the query at
    the start, marked authoritative, with nothing but its answer section
    changed from write to write. *)
Theorem Out_replies_share_header (t : Transfer) (wres : list (option error))
    (q : Msg) (ch : list Envelope) :
  Forall (fun x => Authoritative x = true
                   /\ set_Answer [] x = set_Authoritative true (SetReply new_Msg q))
    (written (Out t wres q ch).2.2).
Proof.
  unfold Out. simpl.
  destruct (Out_loop_header ch (set_Authoritative true (SetReply new_Msg q)) wres)
    as [Hall _].
  eapply Forall_impl; [exact Hall|].
  intros x Hx. split; [|exact Hx].
  change (Authoritative (set_Answer [] x) = true). rewrite Hx. reflexivity.
Qed.

(** ** The timers-only flag, exactly *)

Lemma next_read_hd rds : next_read rds = (hd read_timeout rds, tl rds).
Proof. destruct rds; reflexivity. Qed.

(** The first pass of inAxfr sets the flag when it accepts the reply and
    leaves the session alone otherwise; the loop goes on only after an
    accepted reply. *)
Lemma axfr_first_pass id timeout t rd :
  match axfr_body id timeout true t rd with
  | Continue _ t1 _ => axfr_accepts t id rd = true /\ t1 = set_tsigTimersOnly true t
  | Stop t1 _ _ =>
    t1 = if axfr_accepts t id rd then set_tsigTimersOnly true t else t
  end.
Proof.
  unfold axfr_body, axfr_streaming, axfr_accepts.
  destruct (ReadMsg t rd) as [[m|] [e|]]; simpl; auto.
  destruct (id =? Id m)%Z; simpl; auto.
  destruct (isSOAFirst m); simpl; auto.
  destruct (_ =? _)%nat; simpl; auto.
  destruct (isSOALast m); simpl; auto.
Qed.

Lemma ixfr_first_pass id timeout t rd :
  match ixfr_body id timeout (true, 0%Z) t rd with
  | Continue _ t1 _ => ixfr_accepts t id rd = true /\ t1 = set_tsigTimersOnly true t
  | Stop t1 _ _ =>
    t1 = if ixfr_accepts t id rd then set_tsigTimersOnly true t else t
  end.
Proof.
  unfold ixfr_body, ixfr_streaming, ixfr_accepts.
  destruct (ReadMsg t rd) as [[m|] [e|]]; simpl; auto.
  destruct (id =? Id m)%Z; simpl; auto.
  destruct (isSOAFirst m); simpl; rewrite ?andb_false_r; simpl; auto.
  destruct (_ =? _)%nat; simpl; auto.
  destruct (Answer m) as [|[h v|ts|h] more]; simpl; auto.
  destruct (last _) as [[h' v'|ts'|h']|]; simpl; auto.
  destruct (v' =? v)%Z; simpl; auto.
Qed.

(** A run whose first pass behaves so: the first read sees the flag as
    the session brought it, every later read sees it set, and the session
    comes out with the flag set if the first reply was accepted and
    untouched, after that one read, if it was not. *)
Lemma run_loop_final_state {L : Type} (body : L -> Transfer -> RawRead -> Step L)
    (acc : bool) (l : L) (t : Transfer) (rds : list RawRead) :
  (forall l t rd, flag_step t (body l t rd)) ->
  match body l t (hd read_timeout rds) with
  | Continue _ t1 _ => acc = true /\ t1 = set_tsigTimersOnly true t
  | Stop t1 _ _ => t1 = if acc then set_tsigTimersOnly true t else t
  end ->
  forall fuel t' evs how,
    run_loop body (S fuel) l t rds = Some (t', evs, how) ->
    exists n,
      read_flags evs = tsigTimersOnly t :: replicate n true
      /\ t' = (if acc then set_tsigTimersOnly true t else t)
      /\ (acc = false -> n = 0).
Proof.
  intros Hbody Hfirst fuel t' evs how. simpl. rewrite next_read_hd.
  pose proof (Hbody l t (hd read_timeout rds)) as [Hreads _].
  destruct (body l t (hd read_timeout rds)) as [l1 t1 evs1|t1 evs1 how1];
    simpl in Hreads.
  - destruct Hfirst as [-> ->].
    destruct (run_loop body fuel l1 _ (tl rds)) as [[[t2 evs2] how2]|] eqn:E; [|discriminate].
    simpl. intros [= <- <- <-].
    destruct (run_loop_flags _ Hbody _ _ _ _ _ _ _ E) as (n & Hn & Ht).
    exists (S n). unfold read_flags in *. rewrite omap_app, Hreads, Hn. simpl.
    split; [reflexivity|]. split; [|discriminate].
    destruct Ht as [[_ ->]| ->]; reflexivity.
  - intros [= <- <- <-]. exists 0. auto.
Qed.

(** C5 (amended). The timers-only flag of a session that starts a transfer
    with the flag clear. Writing the query leaves it clear, and the first
    reply is read and verified with the flag false. The flag is true after
    the first message exactly when that message is accepted (read without
    error, under the query's id, a SOA first; in inIxfr also more than the
    one record of "no changes", the first a SOA record): then the session
    ends with the flag set and every later reply is read and verified
    with the flag true. Otherwise the transfer ends on its first read, no
    further reply is read and the session is left as it was. No operation
    clears a flag that is set: on a session with the flag set, WriteMsg
    and both state machines leave it set, and every reply is read with it
    set. *)
Theorem timers_only_monotone (t : Transfer) (id : Z) (rds : list RawRead) :
  tsigTimersOnly t = false ->
  (forall m wr, tsigTimersOnly (WriteMsg t m wr).1.1 = false)
  /\ (exists t' evs how n,
       inAxfr t id rds = Some (t', evs, how)
       /\ read_flags evs = false :: replicate n true
       /\ t' = (if axfr_accepts t id (hd read_timeout rds)
                then set_tsigTimersOnly true t else t)
       /\ (axfr_accepts t id (hd read_timeout rds) = false -> n = 0))
  /\ (exists t' evs how n,
       inIxfr t id rds = Some (t', evs, how)
       /\ read_flags evs = false :: replicate n true
       /\ t' = (if ixfr_accepts t id (hd read_timeout rds)
                then set_tsigTimersOnly true t else t)
       /\ (ixfr_accepts t id (hd read_timeout rds) = false -> n = 0))
  /\ (forall t0 id0 rds0,
       tsigTimersOnly t0 = true ->
       (forall m wr, tsigTimersOnly (WriteMsg t0 m wr).1.1 = true)
       /\ (exists t' evs how,
            inAxfr t0 id0 rds0 = Some (t', evs, how)
            /\ tsigTimersOnly t' = true
            /\ Forall (fun b => b = true) (read_flags evs))
       /\ (exists t' evs how,
            inIxfr t0 id0 rds0 = Some (t', evs, how)
            /\ tsigTimersOnly t' = true
            /\ Forall (fun b => b = true) (read_flags evs))).
Proof.
  intros Hfresh. split; [|split; [|split]].
  - intros m wr. rewrite WriteMsg_flag. exact Hfresh.
  - destruct (inAxfr_run t id rds) as (t' & evs & how & R & E).
    destruct (run_loop_final_state _ (axfr_accepts t id (hd read_timeout rds)) _ _ _
                (axfr_body_flag id (read_deadline t))
                (axfr_first_pass id (read_deadline t) t (hd read_timeout rds))
                _ _ _ _ R) as (n & Hn & Ht & Hstop).
    exists t', (evs ++ deferred), how, n.
    rewrite read_flags_deferred, Hn, Hfresh. auto.
  - destruct (inIxfr_run t id rds) as (t' & evs & how & R & E).
    destruct (run_loop_final_state _ (ixfr_accepts t id (hd read_timeout rds)) _ _ _
                (ixfr_body_flag id (read_deadline t))
                (ixfr_first_pass id (read_deadline t) t (hd read_timeout rds))
                _ _ _ _ R) as (n & Hn & Ht & Hstop).
    exists t', (evs ++ deferred), how, n.
    rewrite read_flags_deferred, Hn, Hfresh. auto.
  - intros t0 id0 rds0 Hset. split; [|split].
    + intros m wr. rewrite WriteMsg_flag. exact Hset.
    + destruct (inAxfr_run t0 id0 rds0) as (t' & evs & how & R & E).
      destruct (run_loop_flags _ (axfr_body_flag id0 (read_deadline t0)) _ _ _ _ _ _ _ R)
        as (n & Hn & Ht).
      exists t', (evs ++ deferred), how. rewrite read_flags_deferred, Hn.
      split; [exact E|]. split; [|apply read_flags_all_set; exact Hset].
      destruct Ht as [[_ ->]| ->]; [exact Hset|reflexivity].
    + destruct (inIxfr_run t0 id0 rds0) as (t' & evs & how & R & E).
      destruct (run_loop_flags _ (ixfr_body_flag id0 (read_deadline t0)) _ _ _ _ _ _ _ R)
        as (n & Hn & Ht).
      exists t', (evs ++ deferred), how. rewrite read_flags_deferred, Hn.
      split; [exact E|]. split; [|apply read_flags_all_set; exact Hset].
      destruct Ht as [[_ ->]| ->]; [exact Hset|reflexivity].
Qed.

End Edges.

(** * Further runs on the small instance *)

Section EdgeRuns.
#[local] Existing Instance Toy.dns.
Import Toy.

(** X5, at a first reply under the id 8 to a query under the id 7. *)
Lemma first_reply_rejected_witness :
  inAxfr plain 7 [other_id; data]
  = Some (plain, [EvSetReadDeadline dnsTimeout; EvReadMsg false;
                  EvSend {| E_RR := [soa 5]; E_Error := Some ErrId |};
                  EvCloseChan; EvClose], Returned)
  /\ inIxfr plain 7 [other_id; data]
     = Some (plain, [EvSetReadDeadline dnsTimeout; EvReadMsg false;
                     EvSend {| E_RR := [soa 5]; E_Error := Some ErrId |};
                     EvCloseChan; EvClose], Returned).
Proof.
  apply (first_reply_rejected (H := dns) plain 7 other_id (reply_as 8 [soa 5]) [data] ltac:(reflexivity)).
  left. discriminate.
Defined.

(** X6, at a reply cut short by the transport after the opening SOA and
    one record. *)
Lemma inAxfr_later_errors_witness :
  inAxfr plain 7 [soa_only; data; cut_short; data_soa]
  = Some (set_tsigTimersOnly true plain,
          ((round dnsTimeout false (reply [soa 5]) ++ rounds dnsTimeout true [reply [a_rr]])
           ++ failed_round dnsTimeout true (ErrExt "unexpected EOF"))
          ++ [EvCloseChan; EvClose], Returned).
Proof.
  destruct (inAxfr_later_errors (H := dns) plain 7 soa_only (reply [soa 5]) [data] [reply [a_rr]])
    as [Hfail _];
    [split; reflexivity|reflexivity|left; reflexivity
    |repeat constructor|repeat constructor|].
  apply (Hfail cut_short (Some (reply [a_rr])) (ErrExt "unexpected EOF") [data_soa]).
  reflexivity.
Defined.

(** X7, at a reply cut short by the transport right after the first
    message of an IXFR. *)
Lemma inIxfr_later_errors_witness :
  inIxfr plain 7 [soa_data; cut_short; data_soa]
  = Some (set_tsigTimersOnly true plain,
          ((round dnsTimeout false (reply [soa 5; a_rr]) ++ rounds dnsTimeout true [])
           ++ [EvSetReadDeadline dnsTimeout; EvReadMsg true;
               EvSend {| E_RR := [a_rr]; E_Error := Some (ErrExt "unexpected EOF") |}])
          ++ [EvCloseChan; EvClose], Returned).
Proof.
  destruct (inIxfr_later_errors (H := dns) plain 7 soa_data (reply [soa 5; a_rr])
              {| Name := "z."; Rrtype := TypeSOA |} 5%Z [a_rr] [] [])
    as [Hfail _];
    [split; reflexivity|reflexivity|reflexivity|discriminate|reflexivity
    |constructor|constructor|].
  apply (Hfail cut_short (reply [a_rr]) (ErrExt "unexpected EOF") [data_soa]).
  reflexivity.
Defined.

(** X8, at a first reply signed with the key "k." on a session that holds
    the key "j." only. *)
Lemma first_reply_with_error_witness :
  inAxfr other_key 7 [got [Byte.x07; Byte.x06; Byte.xfa]]
  = Some (other_key, failed_round dnsTimeout false ErrSecret ++ [EvCloseChan; EvClose],
          Returned)
  /\ inIxfr other_key 7 [got [Byte.x07; Byte.x06; Byte.xfa]]
     = Some (other_key,
             [EvSetReadDeadline dnsTimeout; EvReadMsg false;
              EvSend {| E_RR := [soa 5]; E_Error := Some ErrSecret |}]
             ++ [EvCloseChan; EvClose], Returned).
Proof.
  apply (first_reply_with_error (H := dns) other_key 7 (got [Byte.x07; Byte.x06; Byte.xfa])
           (signed [soa 5]) ErrSecret [] ltac:(reflexivity)).
Defined.

(** X9, at a whole zone in one message: what follows it does not matter. *)
Lemma nothing_read_after_the_end_witness :
  inAxfr plain 7 [whole_zone; soa_only]
  = Some (set_tsigTimersOnly true plain,
          round dnsTimeout false (reply [soa 5; a_rr; a_rr; soa 5])
          ++ [EvCloseChan; EvClose], Returned).
Proof.
  apply (proj1 (nothing_read_after_the_end (H := dns) plain 7 [whole_zone; data] [soa_only]
                  (set_tsigTimersOnly true plain)
                  (round dnsTimeout false (reply [soa 5; a_rr; a_rr; soa 5])
                   ++ [EvCloseChan; EvClose]) Returned
                  ltac:(simpl; lia))).
  reflexivity.
Defined.

(** X10, at an unsigned reply on a session that holds the key "k.", and
    at a reply signed in timers-only mode read by a fresh session. *)
Lemma ReadMsg_verifies_signed_only_witness :
  ReadMsg keyed soa_only = (Some (reply [soa 5]), None)
  /\ ReadMsg keyed signed_late = (Some (signed [soa 5]), Some (ErrExt "bad signature")).
Proof.
  split.
  - apply (proj1 (ReadMsg_verifies_signed_only (H := dns) keyed soa_only (reply [soa 5])
                    ltac:(reflexivity) ltac:(right; reflexivity))).
    left. reflexivity.
  - apply (proj2 (ReadMsg_verifies_signed_only (H := dns) keyed signed_late (signed [soa 5])
                    ltac:(reflexivity) ltac:(right; reflexivity))
             key {[ "k."%string := "c2VjcmV0"%string ]} "c2VjcmV0"%string);
      reflexivity.
Defined.

(** X11, at a signed reply whose write fails on the network: the MAC has
    moved on. *)
Lemma WriteMsg_session_effect_witness :
  WriteMsg keyed (signed [soa 5]) (Some (ErrExt "broken pipe"))
  = (set_tsigRequestMAC "+" keyed, [EvWrite [Byte.x07; Byte.x06; Byte.xfa]],
     Some (ErrExt "broken pipe")).
Proof.
  apply (proj2 (proj2 (WriteMsg_session_effect (H := dns) keyed (signed [soa 5])
                         (Some (ErrExt "broken pipe"))))
           key {[ "k."%string := "c2VjcmV0"%string ]} "c2VjcmV0"%string);
    reflexivity.
Defined.

(** X12, at a server that refuses the connection. *)
Lemma In_fails_synchronously_witness :
  In plain (query TypeAXFR) "192.0.2.1:53" peer_down
  = Some {| in_env := false; in_err := Some (ErrExt "connection refused");
            in_t := plain; in_trace := [EvDial "192.0.2.1:53" dnsTimeout];
            in_bg := BgNone |}.
Proof.
  apply (proj1 (In_fails_synchronously (H := dns) plain (query TypeAXFR) "192.0.2.1:53" peer_down)
           (ErrExt "connection refused")).
  reflexivity.
Defined.

(** X13, at the query without question. *)
Lemma In_without_question_witness :
  exists out,
    In plain no_question "192.0.2.1:53" (peer_ok [whole_zone])
    = Some {| in_env := true; in_err := None; in_t := plain;
              in_trace := [EvDial "192.0.2.1:53" dnsTimeout; EvWrite out];
              in_bg := BgPanic "index out of range" |}.
Proof.
  apply (In_without_question (H := dns) plain plain no_question "192.0.2.1:53"
           (peer_ok [whole_zone]) [EvWrite [Byte.x07]]); reflexivity.
Defined.

(** X14, at a query of type IXFR answered with "no changes". *)
Lemma In_runs_state_machine_witness :
  exists t' evs how,
    inIxfr plain 7 [soa_only] = Some (t', evs, how)
    /\ In plain (query TypeIXFR) "192.0.2.1:53" (peer_ok [soa_only])
       = Some {| in_env := true; in_err := None; in_t := t';
                 in_trace := [EvDial "192.0.2.1:53" dnsTimeout]
                             ++ [EvWrite [Byte.x07]] ++ evs;
                 in_bg := BgIxfr how |}.
Proof.
  apply (proj2 (In_runs_state_machine (H := dns) plain plain (query TypeIXFR) "192.0.2.1:53"
                  (peer_ok [soa_only]) {| Qname := "z."; Qtype := TypeIXFR |} []
                  [EvWrite [Byte.x07]] ltac:(reflexivity) ltac:(reflexivity) ltac:(reflexivity))).
  reflexivity.
Defined.

(** X15, at a second AXFR on a session whose flag is set: the opening
    reply is read in timers-only mode. *)
Lemma In_keeps_flag_drops_mac_witness :
  Forall (fun b => b = true)
    (read_flags [EvDial "192.0.2.1:53" dnsTimeout; EvWrite [Byte.x07];
                 EvSetReadDeadline dnsTimeout; EvReadMsg true;
                 EvSend (ok_envelope (reply [soa 5; a_rr; a_rr; soa 5]));
                 EvCloseChan; EvClose])
  /\ tsigTimersOnly (set_Conn new_Conn used) = true.
Proof.
  apply (proj2 (In_keeps_flag_drops_mac (H := dns) used (query TypeAXFR) "192.0.2.1:53"
                  (peer_ok [whole_zone]))
           {| in_env := true; in_err := None; in_t := set_Conn new_Conn used;
              in_trace := [EvDial "192.0.2.1:53" dnsTimeout; EvWrite [Byte.x07];
                           EvSetReadDeadline dnsTimeout; EvReadMsg true;
                           EvSend (ok_envelope (reply [soa 5; a_rr; a_rr; soa 5]));
                           EvCloseChan; EvClose];
              in_bg := BgAxfr Returned |});
    reflexivity.
Defined.

(** C5 (amended), at an AXFR of three messages on a fresh session: the
    opening SOA is accepted and read with the flag false, the two later
    replies are read with the flag true, and the session ends with the
    flag set. *)
Lemma timers_only_monotone_witness :
  exists t' evs how n,
    inAxfr plain 7 [soa_only; data; data_soa] = Some (t', evs, how)
    /\ read_flags evs = false :: replicate n true
    /\ t' = set_tsigTimersOnly true plain
    /\ (axfr_accepts plain 7 soa_only = false -> n = 0).
Proof.
  exact (proj1 (proj2 (timers_only_monotone (H := dns) plain 7 [soa_only; data; data_soa]
                         ltac:(reflexivity)))).
Defined.

End EdgeRuns.
